(** * onedriver: the metadata cache, the content buffers and the FUSE handlers

    A shallow embedding of the Go package [graph] of onedriver
    (content.go, drive_item.go, the cache and the FUSE operation handlers)
    together with the properties of its specification that can be stated
    over it.

    Conventions of the embedding:
    - Go's [int], [int64], [uint64] and [uint32] are [Z] with the wrap-around
      of every conversion and addition written out;
    - a Go string is a [string] (a sequence of bytes), [[]byte] a list of bytes;
    - a nil pointer dereference and a slice index out of range are the
      outcome [Panic];
    - [*DriveItem] pointers are locations of an explicit heap, so that the
      in-place updates of the source are visible through every alias. *)

From Stdlib Require Import ZArith Lia Ascii String.
From Stdlib Require Import Init.Byte.
From stdpp Require Import gmap strings list fin_maps.

Open Scope Z_scope.

(** ** Outcomes of Go code *)

(** A call either returns or panics. *)
Inductive go (A : Type) : Type :=
| Ret (a : A)
| Panic.
Arguments Ret {A} a.
Arguments Panic {A}.

Definition go_bind {A B} (m : go A) (k : A -> go B) : go B :=
  match m with
  | Ret a => k a
  | Panic => Panic
  end.

Declare Scope go_scope.
Delimit Scope go_scope with go.
Notation "x <- m ;; k" := (go_bind m (fun x => k))
  (at level 100, m at next level, right associativity) : go_scope.

(** fuse.Status, restricted to the codes the package returns. *)
Inductive Status := OK | ENOENT | EIO | EREMOTEIO | EBADF | ENOSYS.

#[global] Instance Status_eq_dec : EqDecision Status.
Proof. solve_decision. Defined.

(** ** Machine integers *)

Definition wrap_int (z : Z) : Z := (z + 2 ^ 63) mod 2 ^ 64 - 2 ^ 63.
Definition to_uint64 (z : Z) : Z := z mod 2 ^ 64.
Definition to_uint32 (z : Z) : Z := z mod 2 ^ 32.

(** The Go runtime never allocates an object of more than [maxAlloc] bytes
    (2^48 on linux/amd64), which bounds the length of every slice. *)
Definition maxAlloc : Z := 2 ^ 48.

(** ** Byte slices *)

(** A slice is the visible elements together with the rest of its backing
    array up to the capacity: [s[:n]] may reach into [spare]. *)
Record slice := MkSlice { elems : list byte; spare : list byte }.

Definition len {A} (l : list A) : Z := Z.of_nat (length l).
Definition slice_len (s : slice) : Z := len (elems s).
Definition slice_cap (s : slice) : Z := len (elems s) + len (spare s).

(** [s[lo:hi]]: panics unless [0 <= lo <= hi <= cap(s)]. *)
Definition slice_expr (s : slice) (lo hi : Z) : go slice :=
  if bool_decide (0 <= lo <= hi /\ hi <= slice_cap s) then
    let whole := elems s ++ spare s in
    Ret {| elems := drop (Z.to_nat lo) (take (Z.to_nat hi) whole);
           spare := drop (Z.to_nat hi) whole |}
  else Panic.

(** ** content.go *)

Module Content.

Record DriveItemContent := MkContent {
  data : slice;
  size : Z;            (* uint64 *)
  hasChanges : bool
}.

Definition NewDriveItemContent (contents : slice) : DriveItemContent :=
  {| data := contents; size := to_uint64 (slice_len contents); hasChanges := false |}.

(** Read returns a view of [c.data[off:end]]; the contents of [buf] are not
    used, only its length. *)
Definition Read (c : DriveItemContent) (buf : list byte) (off : Z)
  : go (list byte * Status) :=
  let end0 := wrap_int (wrap_int off + wrap_int (len buf)) in
  let end1 := if bool_decide (slice_len (data c) < end0)
              then slice_len (data c) else end0 in
  (s <- slice_expr (data c) off end1 ;;
   Ret (elems s, OK))%go.

Section Growth.

(** The capacity [append] gives a reallocated array is up to the runtime:
    [newcap old needed] is that capacity. *)
Variable newcap : Z -> Z -> Z.

(** [append(s, xs...)]: in place when the capacity suffices, into a fresh
    zeroed array otherwise. *)
Definition append (s : slice) (xs : list byte) : slice :=
  if bool_decide (slice_len s + len xs <= slice_cap s) then
    {| elems := elems s ++ xs; spare := drop (length xs) (spare s) |}
  else
    {| elems := elems s ++ xs;
       spare := replicate
                  (Z.to_nat (newcap (slice_cap s) (slice_len s + len xs)
                             - (slice_len s + len xs)))
                  "000"%byte |}.

(** [copy(s[offset:], src)] seen from [s]: min(len(s)-offset, len(src))
    elements are overwritten in place. *)
Definition copy_at (s : slice) (offset : Z) (src : list byte) : go slice :=
  (dst <- slice_expr s offset (slice_len s) ;;
   let k := Nat.min (length (elems dst)) (length src) in
   Ret {| elems := take (Z.to_nat offset) (elems s) ++ take k src
                   ++ drop (Z.to_nat offset + k) (elems s);
          spare := spare s |})%go.

Definition Write (c : DriveItemContent) (data_ : list byte) (off : Z)
  : go (Z * Status * DriveItemContent) :=
  let nWrite := wrap_int (len data_) in
  let offset := wrap_int off in
  (d <- (if bool_decide (wrap_int (wrap_int (size c) - 1) < wrap_int (offset + nWrite))
         then
           (* we've exceeded the file size, overwrite via append *)
           (pre <- slice_expr (data c) 0 offset ;; Ret (append pre data_))
         else
           (* writing inside the current file, overwrite in place *)
           copy_at (data c) offset data_) ;;
   Ret (to_uint32 nWrite, OK,
        {| data := d; size := to_uint64 (slice_len d); hasChanges := true |}))%go.

End Growth.

Definition Truncate (c : DriveItemContent) (size_ : Z) : go (Status * DriveItemContent) :=
  (d <- slice_expr (data c) 0 size_ ;;
   Ret (OK, {| data := d; size := size_; hasChanges := true |}))%go.

(** The buffers the package builds keep [size] equal to the length of
    [data] (NewDriveItemContent, Write and Truncate all set it so). *)
Definition wf (c : DriveItemContent) : Prop :=
  size c = slice_len (data c) /\ slice_cap (data c) <= maxAlloc.

End Content.

(** ** Strings: the functions of Go's [strings] and [path/filepath] the package calls

    Go strings are byte sequences and so are the strings here.  [ToLower]
    lowers the ASCII letters, which is what Go's does on ASCII names. *)

Definition error := option string.   (* nil is [None] *)

Definition HasPrefix (s p : string) : bool := String.prefix p s.

Fixpoint Contains (s sub : string) : bool :=
  String.prefix sub s ||
  match s with
  | EmptyString => false
  | String _ s' => Contains s' sub
  end.

Definition lower_ascii (c : ascii) : ascii :=
  let n := nat_of_ascii c in
  if ((65 <=? n) && (n <=? 90))%nat then ascii_of_nat (n + 32) else c.

Fixpoint ToLower (s : string) : string :=
  match s with
  | EmptyString => EmptyString
  | String c s' => String (lower_ascii c) (ToLower s')
  end.

Definition TrimPrefix (s p : string) : string :=
  if String.prefix p s then String.substring (String.length p) (String.length s - String.length p) s
  else s.

Definition HasSuffix (s suf : string) : bool :=
  (String.length suf <=? String.length s)%nat &&
  String.eqb (String.substring (String.length s - String.length suf) (String.length suf) s) suf.

Definition TrimSuffix (s suf : string) : string :=
  if HasSuffix s suf then String.substring 0 (String.length s - String.length suf) s
  else s.

(** [strings.Split(s, sep)] for a one-byte separator, the only use. *)
Fixpoint Split (s : string) (sep : ascii) : list string :=
  match s with
  | EmptyString => [EmptyString]
  | String c s' =>
      if Ascii.eqb c sep then EmptyString :: Split s' sep
      else match Split s' sep with
           | [] => [String c EmptyString]
           | x :: xs => String c x :: xs
           end
  end.

Fixpoint Join (l : list string) (sep : string) : string :=
  match l with
  | [] => EmptyString
  | [x] => x
  | x :: xs => x +:+ sep +:+ Join xs sep
  end.

(** [strings.Replace(s, "//", "/", -1)] *)
Fixpoint squeeze_slashes (s : string) : string :=
  match s with
  | String "/" (String "/" rest) => String "/" (squeeze_slashes rest)
  | String c rest => String c (squeeze_slashes rest)
  | EmptyString => EmptyString
  end.

(** filepath.Clean on a Unix path, over the elements between slashes. *)
Definition clean_step (rooted : bool) (stack : list string) (el : string) : list string :=
  if String.eqb el "" || String.eqb el "." then stack
  else if String.eqb el ".." then
    match stack with
    | x :: rest => if String.eqb x ".." then el :: stack else rest
    | [] => if rooted then [] else [el]
    end
  else el :: stack.

Definition Clean (path : string) : string :=
  if String.eqb path "" then "."
  else
    let rooted := HasPrefix path "/" in
    let out := rev (fold_left (clean_step rooted) (Split path "/") []) in
    if rooted then "/" +:+ Join out "/"
    else if String.eqb (Join out "/") "" then "." else Join out "/".

(** filepath.Dir: Clean of everything up to and including the last slash. *)
Definition Dir (path : string) : string :=
  match rev (Split path "/") with
  | _ :: (_ :: _) as before => Clean (Join (rev before) "/" +:+ "/")
  | _ => Clean ""
  end.

Fixpoint strip_slashes_rev (l : list ascii) : list ascii :=
  match l with
  | "/"%char :: l' => strip_slashes_rev l'
  | _ => l
  end.

(** filepath.Base: the last element, after the trailing slashes are dropped. *)
Definition Base (path : string) : string :=
  if String.eqb path "" then "."
  else
    let stripped :=
      string_of_list_ascii (rev (strip_slashes_rev (rev (list_ascii_of_string path)))) in
    match rev (Split stripped "/") with
    | last_ :: _ => if String.eqb last_ "" then "/" else last_
    | [] => "/"
    end.

(** ** drive_item.go: the item record *)

Record Auth := MkAuth { AccessToken : string }.

Record DriveItemParent := MkParent { Path_ : string; ID_ : string }.
Record Folder := MkFolder { ChildCount : Z }.
Record File := MkFile { MimeType : string }.
Record Deleted := MkDeleted { State : string }.

(** A [*DriveItem] is a location of the heap; nil is [None]. *)
Definition loc := positive.

(** There is one Cache, so the back pointer [cache] of an item is either
    nil or that Cache: [cache] says whether it is set.  The upload session
    type is not used by any code of the package: [uploadSession] says
    whether the pointer is set. *)
Record DriveItem := MkItem {
  cache : bool;
  content : option Content.DriveItemContent;
  uploadSession : bool;
  hasChanges : bool;
  IDInternal : string;
  NameInternal : string;
  SizeInternal : Z;                    (* uint64 *)
  ModTimeInternal : option Z;          (* *time.Time, in Unix seconds *)
  mode : Z;                            (* uint32 *)
  Parent : option DriveItemParent;
  children : option (list string);     (* nil when uninitialized *)
  subdir : Z;                          (* uint32 *)
  Folder_ : option Folder;
  FileInternal : option File;
  Deleted_ : option Deleted;
  ConflictBehavior : string
}.

(** The zero value [DriveItem{}]. *)
Definition zero_item : DriveItem :=
  {| cache := false; content := None; uploadSession := false; hasChanges := false;
     IDInternal := ""; NameInternal := ""; SizeInternal := 0; ModTimeInternal := None;
     mode := 0; Parent := None; children := None; subdir := 0; Folder_ := None;
     FileInternal := None; Deleted_ := None; ConflictBehavior := "" |}.

Definition with_name (n : string) (d : DriveItem) : DriveItem :=
  {| cache := cache d; content := content d; uploadSession := uploadSession d;
     hasChanges := hasChanges d; IDInternal := IDInternal d; NameInternal := n;
     SizeInternal := SizeInternal d; ModTimeInternal := ModTimeInternal d;
     mode := mode d; Parent := Parent d; children := children d; subdir := subdir d;
     Folder_ := Folder_ d; FileInternal := FileInternal d; Deleted_ := Deleted_ d;
     ConflictBehavior := ConflictBehavior d |}.

Definition with_id (i : string) (d : DriveItem) : DriveItem :=
  {| cache := cache d; content := content d; uploadSession := uploadSession d;
     hasChanges := hasChanges d; IDInternal := i; NameInternal := NameInternal d;
     SizeInternal := SizeInternal d; ModTimeInternal := ModTimeInternal d;
     mode := mode d; Parent := Parent d; children := children d; subdir := subdir d;
     Folder_ := Folder_ d; FileInternal := FileInternal d; Deleted_ := Deleted_ d;
     ConflictBehavior := ConflictBehavior d |}.

Definition with_mode (m : Z) (d : DriveItem) : DriveItem :=
  {| cache := cache d; content := content d; uploadSession := uploadSession d;
     hasChanges := hasChanges d; IDInternal := IDInternal d; NameInternal := NameInternal d;
     SizeInternal := SizeInternal d; ModTimeInternal := ModTimeInternal d;
     mode := m; Parent := Parent d; children := children d; subdir := subdir d;
     Folder_ := Folder_ d; FileInternal := FileInternal d; Deleted_ := Deleted_ d;
     ConflictBehavior := ConflictBehavior d |}.

Definition with_mtime (t : option Z) (d : DriveItem) : DriveItem :=
  {| cache := cache d; content := content d; uploadSession := uploadSession d;
     hasChanges := hasChanges d; IDInternal := IDInternal d; NameInternal := NameInternal d;
     SizeInternal := SizeInternal d; ModTimeInternal := t;
     mode := mode d; Parent := Parent d; children := children d; subdir := subdir d;
     Folder_ := Folder_ d; FileInternal := FileInternal d; Deleted_ := Deleted_ d;
     ConflictBehavior := ConflictBehavior d |}.

Definition with_parent (p : option DriveItemParent) (d : DriveItem) : DriveItem :=
  {| cache := cache d; content := content d; uploadSession := uploadSession d;
     hasChanges := hasChanges d; IDInternal := IDInternal d; NameInternal := NameInternal d;
     SizeInternal := SizeInternal d; ModTimeInternal := ModTimeInternal d;
     mode := mode d; Parent := p; children := children d; subdir := subdir d;
     Folder_ := Folder_ d; FileInternal := FileInternal d; Deleted_ := Deleted_ d;
     ConflictBehavior := ConflictBehavior d |}.

Definition with_children (c : option (list string)) (d : DriveItem) : DriveItem :=
  {| cache := cache d; content := content d; uploadSession := uploadSession d;
     hasChanges := hasChanges d; IDInternal := IDInternal d; NameInternal := NameInternal d;
     SizeInternal := SizeInternal d; ModTimeInternal := ModTimeInternal d;
     mode := mode d; Parent := Parent d; children := c; subdir := subdir d;
     Folder_ := Folder_ d; FileInternal := FileInternal d; Deleted_ := Deleted_ d;
     ConflictBehavior := ConflictBehavior d |}.

Definition with_subdir (n : Z) (d : DriveItem) : DriveItem :=
  {| cache := cache d; content := content d; uploadSession := uploadSession d;
     hasChanges := hasChanges d; IDInternal := IDInternal d; NameInternal := NameInternal d;
     SizeInternal := SizeInternal d; ModTimeInternal := ModTimeInternal d;
     mode := mode d; Parent := Parent d; children := children d; subdir := n;
     Folder_ := Folder_ d; FileInternal := FileInternal d; Deleted_ := Deleted_ d;
     ConflictBehavior := ConflictBehavior d |}.

(** *** JSON

    encoding/json is a library: a JSON object for a DriveItem is the record
    of the tagged fields it carries, each absent or present. *)
Record ItemJSON := MkJSON {
  j_id : option string;
  j_name : option string;
  j_size : option Z;
  j_lastModifiedDatetime : option Z;
  j_parentReference : option (option string * option string);   (* path, id *)
  j_folder : option Folder;
  j_file : option File;
  j_deleted : option Deleted;
  j_conflictBehavior : option string
}.

Definition empty_json : ItemJSON :=
  {| j_id := None; j_name := None; j_size := None; j_lastModifiedDatetime := None;
     j_parentReference := None; j_folder := None; j_file := None; j_deleted := None;
     j_conflictBehavior := None |}.

Definition omitempty (s : string) : option string :=
  if String.eqb s "" then None else Some s.

(** json.Marshal of an item: the tagged fields, empty ones omitted. *)
Definition Marshal (d : DriveItem) : ItemJSON :=
  {| j_id := omitempty (IDInternal d);
     j_name := omitempty (NameInternal d);
     j_size := if SizeInternal d =? 0 then None else Some (SizeInternal d);
     j_lastModifiedDatetime := ModTimeInternal d;
     j_parentReference :=
       match Parent d with
       | Some p => Some (omitempty (Path_ p), omitempty (ID_ p))
       | None => None
       end;
     j_folder := Folder_ d;
     j_file := FileInternal d;
     j_deleted := Deleted_ d;
     j_conflictBehavior := omitempty (ConflictBehavior d) |}.

Definition or_keep {A} (new : option A) (old : A) : A :=
  match new with Some x => x | None => old end.

Definition or_keep_opt {A} (new : option A) (old : option A) : option A :=
  match new with Some x => Some x | None => old end.

(** json.Unmarshal into an existing item: the fields present in the object
    overwrite, the others (and all untagged fields) stay. *)
Definition Unmarshal (j : ItemJSON) (d : DriveItem) : DriveItem :=
  {| cache := cache d; content := content d; uploadSession := uploadSession d;
     hasChanges := hasChanges d;
     IDInternal := or_keep (j_id j) (IDInternal d);
     NameInternal := or_keep (j_name j) (NameInternal d);
     SizeInternal := or_keep (j_size j) (SizeInternal d);
     ModTimeInternal := or_keep_opt (j_lastModifiedDatetime j) (ModTimeInternal d);
     mode := mode d;
     Parent :=
       match j_parentReference j with
       | Some (jp, ji) =>
           let old := match Parent d with Some p => p | None => MkParent "" "" end in
           Some {| Path_ := or_keep jp (Path_ old); ID_ := or_keep ji (ID_ old) |}
       | None => Parent d
       end;
     children := children d; subdir := subdir d;
     Folder_ := or_keep_opt (j_folder j) (Folder_ d);
     FileInternal := or_keep_opt (j_file j) (FileInternal d);
     Deleted_ := or_keep_opt (j_deleted j) (Deleted_ d);
     ConflictBehavior := or_keep (j_conflictBehavior j) (ConflictBehavior d) |}.

(** *** Methods of DriveItem that read the item only *)

Definition S_IFDIR : Z := 16384.   (* 0x4000 *)
Definition S_IFREG : Z := 32768.   (* 0x8000 *)

Definition Name (d : DriveItem) : string := NameInternal d.
Definition SetName (name : string) (d : DriveItem) : DriveItem := with_name name d.
Definition ID (d : DriveItem) : string := IDInternal d.

Definition isLocalID (id : string) : bool :=
  HasPrefix id "local-" || String.eqb id "".

(** Mode has a value receiver: the default it computes is not stored. *)
Definition Mode (d : DriveItem) : Z :=
  if mode d =? 0 then
    match FileInternal d with
    | None => Z.lor S_IFDIR 493       (* 0755 *)
    | Some _ => Z.lor S_IFREG 420     (* 0644 *)
    end
  else mode d.

Definition IsDir (d : DriveItem) : bool := 0 <? Z.land (Mode d) S_IFDIR.

(** Path dereferences [d.Parent]. *)
Definition Path (d : DriveItem) : go string :=
  match Parent d with
  | None => Panic
  | Some p =>
      if String.eqb (ID_ p) "" && String.eqb (Name d) "root" then Ret "/"
      else Ret (squeeze_slashes (TrimPrefix (Path_ p +:+ "/" +:+ Name d) "/drive/root:"))
  end.

Definition ModTime (d : DriveItem) : go Z :=
  match ModTimeInternal d with
  | None => Panic
  | Some t => Ret (to_uint64 t)
  end.

Definition NLink (d : DriveItem) : Z :=
  if IsDir d then to_uint32 (2 + subdir d) else 1.

Definition Size (d : DriveItem) : Z :=
  if IsDir d then 4096 else SizeInternal d.

Record Owner := MkOwner { Uid : Z; Gid : Z }.

Record Attr := MkAttr {
  a_Size : Z; a_Nlink : Z; a_Atime : Z; a_Mtime : Z; a_Ctime : Z; a_Mode : Z;
  a_Owner : Owner
}.

(** [owner] is what os.Getuid and os.Getgid answer. *)
Definition DriveItem_GetAttr (owner : Owner) (d : DriveItem) : go (Attr * Status) :=
  (t <- ModTime d ;;
   Ret ({| a_Size := Size d; a_Nlink := NLink d; a_Atime := t; a_Mtime := t;
           a_Ctime := t; a_Mode := Mode d; a_Owner := owner |}, OK))%go.

(** ** The remote gateway

    The HTTP client (Get, Put, Post, Patch, Delete of the package) is not
    part of the sources.  A request is recorded in the world and answered
    by the world's [server], which sees the requests made so far; a body is
    kept in decoded form. *)

Inductive Method := GET | PUT | POST | PATCH | DELETE.

Inductive Payload :=
| NoBody
| RawBody (s : string)
| JsonBody (j : ItemJSON).

Record Request := MkRequest {
  r_method : Method;
  r_path : string;
  r_auth : option Auth;
  r_body : Payload
}.

Inductive Body :=
| BodyRaw (b : list byte)                                (* not JSON *)
| BodyItem (j : ItemJSON)                                (* a drive item *)
| BodyChildren (l : list ItemJSON)                       (* {"value": [...]} *)
| BodyDelta (next delta : string) (l : list ItemJSON).   (* a delta page *)

Inductive Response :=
| Success (b : Body)
| Failure (msg : string).

(** json.Unmarshal(body, item): an error on what is not JSON, and no field
    set by an object that carries none of the item's. *)
Definition item_of_body (b : Body) : option ItemJSON :=
  match b with
  | BodyRaw _ => None
  | BodyItem j => Some j
  | BodyChildren _ | BodyDelta _ _ _ => Some empty_json
  end.

(** json.Unmarshal(body, &fetched) for driveChildren, the error dropped. *)
Definition children_of_body (b : Body) : list ItemJSON :=
  match b with
  | BodyChildren l | BodyDelta _ _ l => l
  | BodyRaw _ | BodyItem _ => []
  end.

Record deltaResponse := MkDeltaResponse {
  NextLink : string;
  DeltaLink : string;
  Values : list ItemJSON
}.

Definition delta_of_body (b : Body) : deltaResponse :=
  match b with
  | BodyDelta next delta l => MkDeltaResponse next delta l
  | BodyChildren l => MkDeltaResponse "" "" l
  | BodyRaw _ | BodyItem _ => MkDeltaResponse "" "" []
  end.

(** Modelled from the spec: the URL builders ResourcePath, ChildrenPath and
    ChildrenPathID of the package are not among the sources; the URLs are the
    endpoints the specification lists ([/me/drive/root:{path}],
    [/me/drive/items/{id}/children]). *)
Definition ResourcePath (path : string) : string :=
  if String.eqb path "/" then "/me/drive/root" else "/me/drive/root:" +:+ path.

Definition ChildrenPath (path : string) : string :=
  if String.eqb path "/" then ResourcePath path +:+ "/children"
  else ResourcePath path +:+ ":/children".

Definition ChildrenPathID (id : string) : string :=
  "/me/drive/items/" +:+ id +:+ "/children".

(** ** The world: heap, cache and environment *)

(** The Cache (its []byte bucket names and the handle of the database
    left out; [content_db] is the content bucket). *)
Record World := MkWorld {
  heap : gmap loc DriveItem;
  next_loc : loc;
  metadata : gmap string loc;                       (* live file metadata *)
  content_ : gmap string Content.DriveItemContent;  (* live content of open files *)
  content_db : gmap string (list byte);
  root : string;
  cache_auth : option Auth;
  deltaLink : string;
  calls : list Request;                             (* requests made, oldest first *)
  server : list Request -> Request -> Response;
  rand_strings : nat -> string;                     (* what randString(20) returns *)
  rand_used : nat;
  now : Z                                           (* time.Now(), Unix seconds *)
}.

Definition with_heap (h : gmap loc DriveItem) (n : loc) (w : World) : World :=
  {| heap := h; next_loc := n; metadata := metadata w; content_ := content_ w;
     content_db := content_db w; root := root w; cache_auth := cache_auth w;
     deltaLink := deltaLink w; calls := calls w; server := server w;
     rand_strings := rand_strings w; rand_used := rand_used w; now := now w |}.

Definition with_metadata (m : gmap string loc) (w : World) : World :=
  {| heap := heap w; next_loc := next_loc w; metadata := m; content_ := content_ w;
     content_db := content_db w; root := root w; cache_auth := cache_auth w;
     deltaLink := deltaLink w; calls := calls w; server := server w;
     rand_strings := rand_strings w; rand_used := rand_used w; now := now w |}.

Definition with_content (c : gmap string Content.DriveItemContent)
    (db : gmap string (list byte)) (w : World) : World :=
  {| heap := heap w; next_loc := next_loc w; metadata := metadata w; content_ := c;
     content_db := db; root := root w; cache_auth := cache_auth w;
     deltaLink := deltaLink w; calls := calls w; server := server w;
     rand_strings := rand_strings w; rand_used := rand_used w; now := now w |}.

Definition with_deltaLink (l : string) (w : World) : World :=
  {| heap := heap w; next_loc := next_loc w; metadata := metadata w; content_ := content_ w;
     content_db := content_db w; root := root w; cache_auth := cache_auth w;
     deltaLink := l; calls := calls w; server := server w;
     rand_strings := rand_strings w; rand_used := rand_used w; now := now w |}.

Definition with_calls (l : list Request) (w : World) : World :=
  {| heap := heap w; next_loc := next_loc w; metadata := metadata w; content_ := content_ w;
     content_db := content_db w; root := root w; cache_auth := cache_auth w;
     deltaLink := deltaLink w; calls := l; server := server w;
     rand_strings := rand_strings w; rand_used := rand_used w; now := now w |}.

Definition with_rand_used (n : nat) (w : World) : World :=
  {| heap := heap w; next_loc := next_loc w; metadata := metadata w; content_ := content_ w;
     content_db := content_db w; root := root w; cache_auth := cache_auth w;
     deltaLink := deltaLink w; calls := calls w; server := server w;
     rand_strings := rand_strings w; rand_used := n; now := now w |}.

(** State passing with panics. *)
Definition M (A : Type) : Type := World -> go (A * World).

Definition m_ret {A} (a : A) : M A := fun w => Ret (a, w).

Definition m_bind {A B} (m : M A) (k : A -> M B) : M B :=
  fun w => match m w with
           | Ret (a, w') => k a w'
           | Panic => Panic
           end.

Definition m_panic {A} : M A := fun _ => Panic.

Definition m_lift {A} (g : go A) : M A :=
  fun w => match g with
           | Ret a => Ret (a, w)
           | Panic => Panic
           end.

Definition m_get : M World := fun w => Ret (w, w).
Definition m_modify (f : World -> World) : M unit := fun w => Ret (tt, f w).

Declare Scope m_scope.
Delimit Scope m_scope with M.
Notation "'let*' x ':=' m 'in' k" := (m_bind m (fun x => k))
  (at level 10, x pattern, m at level 100, k at level 200) : m_scope.
Notation "m1 ';;' m2" := (m_bind m1 (fun _ => m2))
  (at level 100, m2 at level 200, right associativity) : m_scope.
Open Scope m_scope.

(** Dereferencing a pointer: nil panics. *)
Definition load (p : option loc) : M DriveItem :=
  fun w => match p with
           | None => Panic
           | Some l => match heap w !! l with
                       | Some d => Ret (d, w)
                       | None => Panic
                       end
           end.

Definition store (l : loc) (d : DriveItem) : M unit :=
  m_modify (fun w => with_heap (<[l := d]> (heap w)) (next_loc w) w).

Definition update (p : option loc) (f : DriveItem -> DriveItem) : M unit :=
  let* d := load p in
  match p with
  | Some l => store l (f d)
  | None => m_panic
  end.

Definition alloc (d : DriveItem) : M loc :=
  fun w => Ret (next_loc w,
                with_heap (<[next_loc w := d]> (heap w)) (Pos.succ (next_loc w)) w).

Definition request (r : Request) : M Response :=
  fun w => Ret (server w (calls w) r, with_calls (calls w ++ [r]) w).

Definition Get (path : string) (auth : option Auth) : M Response :=
  request (MkRequest GET path auth NoBody).
Definition Put (path : string) (auth : option Auth) (body : string) : M Response :=
  request (MkRequest PUT path auth (RawBody body)).
Definition Post (path : string) (auth : option Auth) (body : ItemJSON) : M Response :=
  request (MkRequest POST path auth (JsonBody body)).
Definition Patch (path : string) (auth : option Auth) (body : ItemJSON) : M Response :=
  request (MkRequest PATCH path auth (JsonBody body)).
Definition Delete (path : string) (auth : option Auth) : M Response :=
  request (MkRequest DELETE path auth NoBody).

(** Modelled from the spec: GetItem is not among the sources; it is
    [fetch_item(path, cred)], a GET of the path-addressed item, decoded into
    a new item. *)
Definition GetItem (path : string) (auth : option Auth) : M (option DriveItem * error) :=
  let* resp := Get (ResourcePath path) auth in
  match resp with
  | Failure msg => m_ret (None, Some msg)
  | Success b =>
      match item_of_body b with
      | Some j => m_ret (Some (Unmarshal j zero_item), None)
      | None => m_ret (Some zero_item, Some "invalid character looking for beginning of value")
      end
  end.

(** ** The cache

    The sources hold the cache in two versions; the one embedded here keeps
    the live metadata in a sync.Map of [*DriveItem], so that the items the
    graph holds are shared with every caller that resolved them. *)

Definition GetID (id : string) : M (option loc) :=
  fun w => Ret (metadata w !! id, w).

Definition InsertID (id : string) (item : loc) : M unit :=
  m_modify (fun w => with_metadata (<[id := item]> (metadata w)) w).

Definition DeleteID (id : string) : M unit :=
  m_modify (fun w => with_metadata (delete id (metadata w)) w).

Definition InsertContentID (key : string) (c : Content.DriveItemContent) : M unit :=
  m_modify (fun w => with_content (<[key := c]> (content_ w)) (content_db w) w).

Definition DeleteContentID (key : string) : M unit :=
  m_modify (fun w => with_content (delete key (content_ w)) (delete key (content_db w)) w).

(** [append(ids, id)] on a possibly nil slice. *)
Definition append_id (ids : option (list string)) (id : string) : option (list string) :=
  match ids with
  | Some l => Some (l ++ [id])
  | None => Some [id]
  end.

(** The loop of GetChildrenID over the ids already in [item.children]. *)
Fixpoint cached_children (ids : list string) (acc : gmap string loc) : M (gmap string loc) :=
  match ids with
  | [] => m_ret acc
  | id :: rest =>
      let* child := GetID id in
      match child with
      | None => cached_children rest acc   (* nil if deleted or never existed *)
      | Some l =>
          let* d := load (Some l) in
          cached_children rest (<[ToLower (Name d) := l]> acc)
      end
  end.

(** The loop of GetChildrenID over the children the server sent. *)
Fixpoint fetched_children (item : loc) (fetched : list ItemJSON) (acc : gmap string loc)
  : M (gmap string loc) :=
  match fetched with
  | [] => m_ret acc
  | j :: rest =>
      let* child := alloc (Unmarshal j zero_item) in
      let* cd := load (Some child) in
      InsertID (ID cd) child ;;
      update (Some item) (fun d => with_children (append_id (children d) (IDInternal cd)) d) ;;
      (if IsDir cd
       then update (Some item) (fun d => with_subdir (to_uint32 (subdir d + 1)) d)
       else m_ret tt) ;;
      fetched_children item rest (<[ToLower (Name cd) := child]> acc)
  end.

(** The double quote of the error message below. *)
Definition dquote : string := String (ascii_of_nat 34) EmptyString.

Definition no_token (auth : option Auth) : bool :=
  match auth with
  | None => true
  | Some a => String.eqb (AccessToken a) ""
  end.

(** The children map is nil ([None]) on the two error returns that say so. *)
Definition GetChildrenID (id : string) (auth : option Auth)
  : M (option (gmap string loc) * error) :=
  let* item := GetID id in
  match item with
  | None => m_ret (Some ∅, Some (id +:+ " does not exist in cache"))
  | Some l =>
      let* d := load (Some l) in
      if negb (IsDir d) then
        (* Normal files are treated as empty folders. *)
        m_ret (Some ∅, None)
      else
        match children d with
        | Some ids =>
            let* m := cached_children ids ∅ in
            m_ret (Some m, None)
        | None =>
            if no_token auth then
              let* p := m_lift (Path d) in
              m_ret (None, Some ("Auth was nil/zero and children of " +:+ dquote +:+ p +:+
                                 dquote +:+
                                 " were not in cache. Could not fetch item as a result."))
            else
              let* resp := Get (ChildrenPathID id) auth in
              match resp with
              | Failure msg => m_ret (None, Some msg)
              | Success body =>
                  update (Some l) (with_children (Some [])) ;;
                  let* m := fetched_children l (children_of_body body) ∅ in
                  m_ret (Some m, None)
              end
        end
  end.

Definition not_exist_suffix : string := " does not exist on server or in local cache".

(** The loop of GetPath: [seen] are the components walked so far. *)
Fixpoint GetPath_walk (seen rest : list string) (lastID : string) (item : option loc)
    (auth : option Auth) : M (option loc * error) :=
  match rest with
  | [] => m_ret (item, None)
  | name :: rest' =>
      let* (children, err) := GetChildrenID lastID auth in
      match err with
      | Some e => m_ret (None, Some e)
      | None =>
          match default ∅ children !! name with
          | None =>
              m_ret (None, Some (Join (seen ++ [name]) "/" +:+ not_exist_suffix))
          | Some l =>
              let* d := load (Some l) in
              GetPath_walk (seen ++ [name]) rest' (ID d) (Some l) auth
          end
      end
  end.

Definition GetPath (path : string) (auth : option Auth) : M (option loc * error) :=
  let* w := m_get in
  let lastID := root w in
  if String.eqb path "/" then
    let* item := GetID lastID in
    m_ret (item, None)
  else
    let path := TrimSuffix (ToLower path) "/" in
    let split := tail (Split path "/") in   (* omit leading "/" *)
    GetPath_walk [] split lastID None auth.

Definition GetChildrenPath (path : string) (auth : option Auth)
  : M (option (gmap string loc) * error) :=
  let* (item, err) := GetPath path auth in
  match err with
  | Some e => m_ret (Some ∅, Some e)
  | None =>
      let* d := load item in
      GetChildrenID (ID d) auth
  end.

Definition setParent (item parent : option loc) : M unit :=
  let* d := load item in
  (if IsDir d
   then update parent (fun p => with_subdir (to_uint32 (subdir p + 1)) p)
   else m_ret tt) ;;
  let* d := load item in
  update parent (fun p => with_children (append_id (children p) (IDInternal d)) p) ;;
  let* p := load parent in
  let* d := load item in
  match Parent d with
  | None => m_panic
  | Some ip => update item (with_parent (Some (MkParent (Path_ ip) (IDInternal p))))
  end.

(** [ids] without the first occurrence of [id] (the loop of removeParent). *)
Fixpoint remove_first (id : string) (ids : list string) : list string :=
  match ids with
  | [] => []
  | x :: rest => if String.eqb x id then rest else x :: remove_first id rest
  end.

(** [ids] with the first occurrence of [old] replaced (the loop of MoveID). *)
Fixpoint replace_first (old new : string) (ids : list string) : list string :=
  match ids with
  | [] => []
  | x :: rest => if String.eqb x old then new :: rest else x :: replace_first old new rest
  end.

Definition removeParent (item : option loc) : M unit :=
  match item with
  | None => m_ret tt      (* item can be nil in some scenarios *)
  | Some _ =>
      let* d := load item in
      let id := ID d in
      match Parent d with
      | None => m_panic
      | Some ip =>
          let* parent := GetID (ID_ ip) in
          update parent (fun p => with_children (option_map (remove_first id) (children p)) p) ;;
          let* d := load item in
          if IsDir d
          then update parent (fun p => with_subdir (to_uint32 (subdir p - 1)) p)
          else m_ret tt
      end
  end.

Definition DeletePath (key : string) : M unit :=
  let key := ToLower key in
  (* Uses empty auth *)
  let* (item, err) := GetPath key (Some (MkAuth "")) in
  (match err with
   | Some _ => removeParent item
   | None => m_ret tt
   end) ;;
  let* d := load item in
  DeleteID (ID d).

Definition InsertPath (key : string) (auth : option Auth) (item : option loc) : M error :=
  let key := ToLower key in
  let* (parent, err) := GetPath (Dir key) auth in
  match err, parent with
  | Some e, _ => m_ret (Some e)
  | None, None =>
      m_ret (Some "Parent of key was nil! Did we accidentally use an ID for the key?")
  | None, Some _ =>
      setParent item parent ;;
      let* d := load item in
      match item with
      | Some l => InsertID (ID d) l ;; m_ret None
      | None => m_panic
      end
  end.

Definition MoveID (oldID newID : string) : M error :=
  let* item := GetID oldID in
  match item with
  | None => m_ret (Some ("Could not get item: " +:+ oldID))
  | Some l =>
      let* d := load item in
      match Parent d with
      | None => m_panic
      | Some ip =>
          (* need to rename the child under the parent *)
          let* parent := GetID (ID_ ip) in
          update parent
            (fun p => with_children (option_map (replace_first oldID newID) (children p)) p) ;;
          (* rename actual item and move it in the cache *)
          update item (with_id newID) ;;
          InsertID newID l ;;
          DeleteID oldID ;;
          m_ret None
      end
  end.

Definition MovePath (oldPath newPath : string) (auth : option Auth) : M error :=
  let* (item, err) := GetPath oldPath auth in
  match err with
  | Some e => m_ret (Some e)
  | None =>
      DeletePath oldPath ;;
      let* err := InsertPath newPath auth item in
      match err with
      | Some e =>
          (* insert failed, reinsert in old location *)
          InsertPath oldPath auth item ;;
          m_ret (Some e)
      | None => m_ret None
      end
  end.

(** apply a server-side change to our local state: a stub in the source. *)
Definition applyDelta (item : DriveItem) : M error := m_ret None.

Fixpoint applyDeltas (items : list DriveItem) : M unit :=
  match items with
  | [] => m_ret tt
  | item :: rest => applyDelta item ;; applyDeltas rest
  end.

(** [graphURL] is a constant of the package that is not among the sources. *)
Definition pollDeltas (graphURL : string) (auth : option Auth) : M (bool * error) :=
  let* w := m_get in
  let* resp := Get (deltaLink w) auth in
  match resp with
  | Failure msg => m_ret (false, Some msg)
  | Success body =>
      let page := delta_of_body body in
      applyDeltas (map (fun j => Unmarshal j zero_item) (Values page)) ;;
      if negb (String.eqb (NextLink page) "") then
        m_modify (with_deltaLink (TrimPrefix (NextLink page) graphURL)) ;;
        m_ret (true, None)
      else
        m_modify (with_deltaLink (TrimPrefix (DeltaLink page) graphURL)) ;;
        m_ret (false, None)
  end.

(** ** drive_item.go: the methods that reach the cache *)

Definition localID : M string :=
  fun w => Ret ("local-" +:+ rand_strings w (rand_used w),
                with_rand_used (S (rand_used w)) w).

Definition NewDriveItem (name : string) (mode_ : Z) (parent : option loc) : M loc :=
  let* pinfo :=
    match parent with
    | Some _ =>
        let* p := load parent in
        let* path := m_lift (Path p) in
        m_ret (MkParent path (IDInternal p), cache p)
    | None => m_ret (MkParent "" "", false)
    end in
  let* w := m_get in
  let* id := localID in
  alloc {| cache := snd pinfo; content := None; uploadSession := false;
           hasChanges := false; IDInternal := id; NameInternal := name;
           SizeInternal := 0; ModTimeInternal := Some (now w); mode := mode_;
           Parent := Some (fst pinfo); children := Some []; subdir := 0;
           Folder_ := None; FileInternal := None; Deleted_ := None;
           ConflictBehavior := "" |}.

(** Calling a method of the Cache through the back pointer of an item. *)
Definition via_cache {A} (d : DriveItem) (m : M A) : M A :=
  if cache d then m else m_panic.

Definition token_of (auth : option Auth) : M string :=
  match auth with
  | Some a => m_ret (AccessToken a)
  | None => m_panic
  end.

Definition RemoteID (item : option loc) (auth : option Auth) : M (string * error) :=
  let* d := load item in
  if IsDir d then
    (* directories will always have an ID *)
    m_ret (IDInternal d, None)
  else if negb (isLocalID (IDInternal d)) then m_ret (IDInternal d, None)
  else
    let* token := token_of auth in
    if String.eqb token "" then m_ret (IDInternal d, None)
    else
      match Parent d with
      | None => m_panic
      | Some ip =>
          let uploadPath :=
            "/me/drive/items/" +:+ ID_ ip +:+ ":/" +:+ Name d +:+ ":/content" in
          let* resp := Put uploadPath auth "" in
          match resp with
          | Failure msg =>
              let fallback := (let* d := load item in m_ret (IDInternal d, Some msg)) in
              if Contains msg "nameAlreadyExists" then
                (* Do we have it (from another thread)? *)
                let* d := load item in
                let* path := m_lift (Path d) in
                let* (found, _) := via_cache d (GetPath path (Some (MkAuth ""))) in
                let* fd := load found in
                if negb (isLocalID (ID fd)) then m_ret (ID fd, None)
                else
                  (* Does the server have it? *)
                  let* d := load item in
                  let* path := m_lift (Path d) in
                  let* (latest, err) := GetItem path auth in
                  match err, latest with
                  | None, Some latest =>
                      let* d := load item in
                      let* err := via_cache d (MoveID (IDInternal d) (IDInternal latest)) in
                      m_ret (IDInternal latest, err)
                  | None, None => m_panic
                  | Some _, _ => fallback
                  end
              else fallback
          | Success body =>
              let* d := load item in
              let* unsafe := NewDriveItem (Name d) 420 None in
              match item_of_body body with
              | None =>
                  let* d := load item in
                  m_ret (IDInternal d, Some "invalid character looking for beginning of value")
              | Some j =>
                  update (Some unsafe) (Unmarshal j) ;;
                  let* u := load (Some unsafe) in
                  let* d := load item in
                  let* err := via_cache d (MoveID (IDInternal d) (IDInternal u)) in
                  m_ret (IDInternal u, err)
              end
          end
      end.

Definition DriveItem_Utimens (item : option loc) (atime mtime : option Z) : M Status :=
  let* d := load item in
  m_lift (Path d) ;;
  update item (with_mtime mtime) ;;
  let* d := load item in
  match item with
  | Some l => via_cache d (InsertID (ID d) l) ;; m_ret OK
  | None => m_panic
  end.

Definition DriveItem_Chmod (item : option loc) (perms : Z) : M Status :=
  let* d := load item in
  m_lift (Path d) ;;
  (if IsDir d
   then update item (with_mode (Z.lor S_IFDIR perms))
   else update item (with_mode (Z.lor S_IFREG perms))) ;;
  let* d := load item in
  match item with
  | Some l => via_cache d (InsertID (ID d) l) ;; m_ret OK
  | None => m_panic
  end.

(** ** The FUSE operation handlers *)

Module FuseFs.

(** these files will never exist, and we should ignore them *)
Definition ignoredFiles : list string :=
  ["/BDMV"; "/.Trash"; "/.Trash-1000"; "/.xdg-volume-info"; "/autorun.inf";
   "/.localized"; "/.DS_Store"; "/._."; "/.hidden"].

Definition ignore (path : string) : bool :=
  existsb (String.eqb path) ignoredFiles.

Definition leadingSlash (path : string) : string :=
  if negb (HasPrefix path "/") then "/" +:+ path else path.

(** The handlers read [fs.Auth]; [fs.items] is the cache of the world. *)
Record FuseFs := MkFuseFs { fs_Auth : option Auth; fs_owner : Owner }.

Definition GetAttr (fs : FuseFs) (name : string) : M (option Attr * Status) :=
  let name := leadingSlash name in
  if ignore name then m_ret (None, ENOENT)
  else
    let* (item, err) := GetPath name (fs_Auth fs) in
    match err, item with
    | Some _, _ | None, None =>
        (* this is where non-existent files are caught *)
        m_ret (None, ENOENT)
    | None, Some _ =>
        let* d := load item in
        let* (attr, status) := m_lift (DriveItem_GetAttr (fs_owner fs) d) in
        m_ret (Some attr, status)
    end.

Definition is_err (e : error) : bool :=
  match e with Some _ => true | None => false end.

Definition Rename (fs : FuseFs) (oldName newName : string) : M Status :=
  let oldName := leadingSlash oldName in
  let newName := leadingSlash newName in
  (* grab item being renamed *)
  let* (item, _) := GetPath oldName (fs_Auth fs) in
  let* (id, err) := RemoteID item (fs_Auth fs) in
  if isLocalID id || is_err err then m_ret EBADF
  else
    (* start creating patch content for server *)
    let patchContent :=
      {| cache := false; content := None; uploadSession := false; hasChanges := false;
         IDInternal := ""; NameInternal := ""; SizeInternal := 0;
         ModTimeInternal := None; mode := 0; Parent := None; children := None;
         subdir := 0; Folder_ := None; FileInternal := None; Deleted_ := None;
         ConflictBehavior := "replace" |} in
    let newDir := Dir newName in
    let* moved :=
      (if negb (String.eqb (Dir oldName) newDir) then
         (* we are moving the item, add the new parent ID to the patch *)
         let* (newParent, err) := GetPath newDir (fs_Auth fs) in
         match err with
         | Some _ => m_ret (inr EREMOTEIO)
         | None =>
             let* (parentID, err) := RemoteID newParent (fs_Auth fs) in
             if isLocalID parentID || is_err err then m_ret (inr EBADF)
             else m_ret (inl (with_parent (Some (MkParent "" parentID)) patchContent))
         end
       else m_ret (inl patchContent)) in
    match moved with
    | inr status => m_ret status
    | inl patchContent =>
        let newBase := Base newName in
        let* patchContent :=
          (if negb (String.eqb (Base oldName) newBase) then
             (* we are renaming the item, add the new name to the patch *)
             update item (SetName newBase) ;;
             m_ret (with_name newBase patchContent)
           else m_ret patchContent) in
        (* apply patch to server copy *)
        let jsonPatch := Marshal patchContent in
        let* resp := Patch ("/me/drive/items/" +:+ id) (fs_Auth fs) jsonPatch in
        let* failed :=
          match resp with
          | Success _ => m_ret false
          | Failure msg =>
              if Contains msg "resourceModified" then
                (* Wait a second, then retry the request. *)
                let* resp := Patch ("/me/drive/items/" +:+ id) (fs_Auth fs) jsonPatch in
                match resp with
                | Failure _ =>
                    update item (SetName (Base oldName)) ;;   (* unrename things locally *)
                    m_ret true
                | Success _ => m_ret false
                end
              else m_ret false
          end in
        if failed then m_ret EREMOTEIO
        else
          (* now rename local copy *)
          let* err := MovePath oldName newName (fs_Auth fs) in
          match err with
          | Some _ => m_ret EIO
          | None => m_ret OK
          end
    end.

Definition Chown (fs : FuseFs) (name : string) (uid gid : Z) : M Status := m_ret ENOSYS.

Definition Chmod (fs : FuseFs) (name : string) (mode_ : Z) : M Status :=
  let name := leadingSlash name in
  let* (item, _) := GetPath name (fs_Auth fs) in
  DriveItem_Chmod item mode_.

(** Go ranges over the children map in an unspecified order; the entries
    are listed in the order of the keys here. *)
Fixpoint dir_entries (children : list (string * loc)) : M (list (string * Z)) :=
  match children with
  | [] => m_ret []
  | (_, child) :: rest =>
      let* d := load (Some child) in
      let* entries := dir_entries rest in
      m_ret ((Name d, Mode d) :: entries)
  end.

Definition OpenDir (fs : FuseFs) (name : string) : M (option (list (string * Z)) * Status) :=
  let name := leadingSlash name in
  let* (children, err) := GetChildrenPath name (fs_Auth fs) in
  match err with
  | Some _ =>
      (* not an item not found error, something has happened to our connection *)
      m_ret (None, EREMOTEIO)
  | None =>
      let* entries := dir_entries (map_to_list (default ∅ children)) in
      m_ret (Some entries, OK)
  end.

Definition Create (fs : FuseFs) (name : string) (flags mode_ : Z) : M (option loc * Status) :=
  let name := leadingSlash name in
  (* fetch details about the new item's parent *)
  let* (parent, err) := GetPath (Dir name) (fs_Auth fs) in
  match err with
  | Some _ => m_ret (None, EREMOTEIO)
  | None =>
      let* item := NewDriveItem (Base name) mode_ parent in
      InsertPath name (fs_Auth fs) (Some item) ;;
      m_ret (Some item, OK)
  end.

Definition Mkdir (fs : FuseFs) (name : string) (mode_ : Z) : M Status :=
  let name := leadingSlash name in
  (* create a new folder on the server *)
  let newFolderPost :=
    {| j_id := None; j_name := omitempty (Base name); j_size := None;
       j_lastModifiedDatetime := None; j_parentReference := None;
       j_folder := Some (MkFolder 0); j_file := None; j_deleted := None;
       j_conflictBehavior := None |} in
  let* resp := Post (ChildrenPath (Dir name)) (fs_Auth fs) newFolderPost in
  match resp with
  | Failure _ => m_ret EREMOTEIO
  | Success body =>
      (* create the new folder locally *)
      let* (created, code) := Create fs name 0 (Z.lor mode_ S_IFDIR) in
      if negb (bool_decide (code = OK)) then m_ret code
      else
        let* d := load created in
        let oldID := ID d in
        (match item_of_body body with
         | Some j => update created (Unmarshal j)
         | None => m_ret tt
         end) ;;
        let* d := load created in
        (* Move the directory to be stored under the non-local ID. *)
        MoveID oldID (ID d) ;;
        m_ret OK
  end.

Definition Rmdir (fs : FuseFs) (name : string) : M Status :=
  let name := leadingSlash name in
  let* resp := Delete (ResourcePath name) (fs_Auth fs) in
  match resp with
  | Failure _ => m_ret EREMOTEIO
  | Success _ => DeletePath name ;; m_ret OK
  end.

Definition Open (fs : FuseFs) (name : string) (flags : Z) : M (option loc * Status) :=
  let name := leadingSlash name in
  let* (item, err) := GetPath name (fs_Auth fs) in
  match err with
  | Some _ =>
      (* We know the file exists, GetAttr() has already been called *)
      m_ret (None, EREMOTEIO)
  | None =>
      load item ;;       (* item.content == nil dereferences item *)
      m_ret (item, OK)
  end.

Definition Unlink (fs : FuseFs) (name : string) : M Status :=
  let name := leadingSlash name in
  let* (item, err) := GetPath name (fs_Auth fs) in
  (* allow safely calling Unlink on items that don't actually exist *)
  if match err with Some e => Contains e "does not exist" | None => false end
  then m_ret ENOENT
  else
    let* d := load item in
    (* a local-only item does not need to be deleted on the server *)
    let* failed :=
      (if negb (isLocalID (ID d)) then
         let* resp := Delete (ResourcePath name) (fs_Auth fs) in
         match resp with
         | Failure _ => m_ret true
         | Success _ => m_ret false
         end
       else m_ret false) in
    if failed then m_ret EREMOTEIO
    else DeletePath name ;; m_ret OK.

(** The handlers that take a path and answer with a status. *)
Inductive Op :=
| OpGetAttr
| OpRename (newName : string)
| OpChown (uid gid : Z)
| OpChmod (mode_ : Z)
| OpOpenDir
| OpMkdir (mode_ : Z)
| OpRmdir
| OpOpen (flags : Z)
| OpCreate (flags mode_ : Z)
| OpUnlink.

Definition run (fs : FuseFs) (op : Op) (name : string) : M Status :=
  match op with
  | OpGetAttr => let* r := GetAttr fs name in m_ret (snd r)
  | OpRename newName => Rename fs name newName
  | OpChown uid gid => Chown fs name uid gid
  | OpChmod mode_ => Chmod fs name mode_
  | OpOpenDir => let* r := OpenDir fs name in m_ret (snd r)
  | OpMkdir mode_ => Mkdir fs name mode_
  | OpRmdir => Rmdir fs name
  | OpOpen flags => let* r := Open fs name flags in m_ret (snd r)
  | OpCreate flags mode_ => let* r := Create fs name flags mode_ in m_ret (snd r)
  | OpUnlink => Unlink fs name
  end.

End FuseFs.

(** ** Observations on a world *)

(** [get(id)]: the item the graph holds under [id]. *)
Definition item_at (w : World) (id : string) : option DriveItem :=
  match metadata w !! id with
  | Some l => heap w !! l
  | None => None
  end.

Definition name_at (w : World) (id : string) : option string :=
  option_map NameInternal (item_at w id).

Definition children_at (w : World) (id : string) : option (list string) :=
  match item_at w id with
  | Some d => children d
  | None => None
  end.

Definition is_dir_id (w : World) (id : string) : bool :=
  match item_at w id with
  | Some d => IsDir d
  | None => false
  end.

(** The number of ids of a children list that are directories of the graph. *)
Definition count_dirs (w : World) (ids : list string) : Z :=
  len (List.filter (is_dir_id w) ids).

(** The subdirectory count of a directory with enumerated children is the
    number of its children that are directories. *)
Definition subdir_ok (w : World) (d : DriveItem) : Prop :=
  IsDir d = true ->
  forall ids, children d = Some ids -> subdir d = count_dirs w ids.

Definition subdir_inv (w : World) : Prop :=
  forall id d, item_at w id = Some d -> subdir_ok w d.

Definition subdir_ok_b (w : World) (d : DriveItem) : bool :=
  negb (IsDir d) ||
  match children d with
  | Some ids => subdir d =? count_dirs w ids
  | None => true
  end.

Definition subdir_inv_b (w : World) : bool :=
  forallb (fun kv => match heap w !! kv.2 with
                     | Some d => subdir_ok_b w d
                     | None => true
                     end)
          (map_to_list (metadata w)).

(** Resolution of a path that ends in the not-found error of GetPath. *)
Definition not_found (auth : option Auth) (path : string) (w : World) : Prop :=
  exists prefix w',
    GetPath path auth w = Ret ((None, Some (prefix +:+ not_exist_suffix)), w').

(** ** Scenarios

    Small graphs and servers on which the handlers are run. *)

Definition root_item (kids : option (list string)) (nsub : Z) : DriveItem :=
  {| cache := true; content := None; uploadSession := false; hasChanges := false;
     IDInternal := "ROOT"; NameInternal := "root"; SizeInternal := 0;
     ModTimeInternal := Some 1500000000; mode := 0; Parent := Some (MkParent "" "");
     children := kids; subdir := nsub; Folder_ := Some (MkFolder 0);
     FileInternal := None; Deleted_ := None; ConflictBehavior := "" |}.

Definition folder_item (id name parentPath parentID : string)
    (kids : option (list string)) (nsub : Z) : DriveItem :=
  {| cache := false; content := None; uploadSession := false; hasChanges := false;
     IDInternal := id; NameInternal := name; SizeInternal := 0;
     ModTimeInternal := Some 1500000000; mode := 0;
     Parent := Some (MkParent parentPath parentID);
     children := kids; subdir := nsub; Folder_ := Some (MkFolder 0);
     FileInternal := None; Deleted_ := None; ConflictBehavior := "" |}.

Definition file_item (id name parentPath parentID : string) : DriveItem :=
  {| cache := false; content := None; uploadSession := false; hasChanges := false;
     IDInternal := id; NameInternal := name; SizeInternal := 3;
     ModTimeInternal := Some 1500000000; mode := 0;
     Parent := Some (MkParent parentPath parentID);
     children := None; subdir := 0; Folder_ := None;
     FileInternal := Some (MkFile "text/plain"); Deleted_ := None;
     ConflictBehavior := "" |}.

Fixpoint place (items : list DriveItem) (l : loc) (w : World) : World :=
  match items with
  | [] => with_heap (heap w) l w
  | d :: rest =>
      place rest (Pos.succ l)
        (with_metadata (<[IDInternal d := l]> (metadata w))
           (with_heap (<[l := d]> (heap w)) l w))
  end.

Definition empty_world (srv : list Request -> Request -> Response) : World :=
  {| heap := ∅; next_loc := 1%positive; metadata := ∅; content_ := ∅; content_db := ∅;
     root := "ROOT"; cache_auth := Some (MkAuth "token");
     deltaLink := "/me/drive/root/delta?token=latest"; calls := [];
     server := srv; rand_strings := fun _ => "aaaaaaaaaaaaaaaaaaaa"; rand_used := 0;
     now := 1600000000 |}.

Definition world_of (items : list DriveItem)
    (srv : list Request -> Request -> Response) : World :=
  place items 1%positive (empty_world srv).

(** A server on which every PATCH fails with [msg]. *)
Definition patch_fails (msg : string) : list Request -> Request -> Response :=
  fun _ r => match r_method r with
             | PATCH => Failure msg
             | _ => Success (BodyItem empty_json)
             end.

Definition accepting : list Request -> Request -> Response :=
  fun _ _ => Success (BodyItem empty_json).

Definition offline : list Request -> Request -> Response :=
  fun _ _ => Failure "connection refused".

Definition fs0 : FuseFs.FuseFs :=
  FuseFs.MkFuseFs (Some (MkAuth "token")) (MkOwner 1000 1000).

(** [/x], a file with a remote id. *)
Definition one_file_items : list DriveItem :=
  [root_item (Some ["F1"]) 0; file_item "F1" "x" "/drive/root:" "ROOT"].

(** [/a/f] and an empty [/b]. *)
Definition two_dirs_items : list DriveItem :=
  [root_item (Some ["A"; "B"]) 2;
   folder_item "A" "a" "/drive/root:" "ROOT" (Some ["F1"]) 0;
   folder_item "B" "b" "/drive/root:" "ROOT" (Some []) 0;
   file_item "F1" "f" "/drive/root:/a" "A"].

(** [/d], an empty directory. *)
Definition one_dir_items : list DriveItem :=
  [root_item (Some ["D1"]) 1;
   folder_item "D1" "d" "/drive/root:" "ROOT" (Some []) 0].

(** [/a/b], with [b] a file. *)
Definition a_b_items : list DriveItem :=
  [root_item (Some ["A"]) 1;
   folder_item "A" "a" "/drive/root:" "ROOT" (Some ["B"]) 0;
   file_item "B" "b" "/drive/root:/a" "A"].

(** The delta item that marks [b] deleted, and a server that delivers it. *)
Definition b_deleted : ItemJSON :=
  {| j_id := Some "B"; j_name := Some "b"; j_size := None;
     j_lastModifiedDatetime := None; j_parentReference := Some (None, Some "A");
     j_folder := None; j_file := Some (MkFile "text/plain");
     j_deleted := Some (MkDeleted "deleted"); j_conflictBehavior := None |}.

Definition graphURL : string := "https://graph.microsoft.com/v1.0".

Definition delta_server : list Request -> Request -> Response :=
  fun _ _ => Success (BodyDelta "" (graphURL +:+ "/me/drive/root/delta?token=2") [b_deleted]).

(** A server whose delta feed always has a next page. *)
Definition next_page_server : list Request -> Request -> Response :=
  fun _ _ => Success (BodyDelta (graphURL +:+ "/me/drive/root/delta?token=1") "" [b_deleted]).

(** A server that answers every request with a new folder of id [D9]. *)
Definition folder_created : list Request -> Request -> Response :=
  fun _ _ =>
    Success (BodyItem {| j_id := Some "D9"; j_name := Some "d"; j_size := None;
                         j_lastModifiedDatetime := Some 1600000000;
                         j_parentReference := Some (Some "/drive/root:", Some "ROOT");
                         j_folder := Some (MkFolder 0); j_file := None;
                         j_deleted := None; j_conflictBehavior := None |}).

(** An empty drive. *)
Definition empty_drive_items : list DriveItem := [root_item (Some []) 0].

(** The outcome of a run, reduced to the answer and chosen observations. *)
Definition observe {A B} (r : go (A * World)) (f : World -> B) : option (A * B) :=
  match r with
  | Ret (a, w) => Some (a, f w)
  | Panic => None
  end.

(** ** The content tiers of the cache

    The live tier is the map [content_]; the cold tier is the content
    bucket of the bolt database, [content_db].  The contents are passed by
    value: none of the functions below writes through a pointer it got. *)

(** bbolt's Bucket.Put refuses an empty key, a key longer than MaxKeySize
    and a value longer than MaxValueSize; the package drops its error, so a
    refused Put leaves the bucket as it was. *)
Definition MaxKeySize : Z := 32768.
Definition MaxValueSize : Z := 2 ^ 31 - 2.

Definition bucket_accepts (key : string) (value : list byte) : bool :=
  negb (String.eqb key "") &&
  (Z.of_nat (String.length key) <=? MaxKeySize) &&
  (len value <=? MaxValueSize).

Definition bucket_put (key : string) (value : list byte)
    (b : gmap string (list byte)) : gmap string (list byte) :=
  if bucket_accepts key value then <[key := value]> b else b.

Definition metadata_missing : string :=
  "Metadata for item " +:+ dquote +:+ "%s" +:+ dquote +:+ " not found in cache".

Section ContentTiers.

(** The bytes of a response body, as the slice the HTTP client returns. *)
Variable raw : Body -> slice.

Definition GetContentID (key : string) (auth : option Auth)
  : M (option Content.DriveItemContent * error) :=
  let* w := m_get in
  (* do we have it in the memory-backed cache? *)
  match content_ w !! key with
  | Some c => m_ret (Some c, None)
  | None =>
      (* do we have it on disk? *)
      match content_db w !! key with
      | Some byteData =>
          (* must create copy *)
          let content := Content.NewDriveItemContent (MkSlice byteData []) in
          InsertContentID key content ;;
          m_ret (Some content, None)
      | None =>
          (* do we have it on the server? *)
          let* item := GetID key in
          match item with
          | None => m_ret (None, Some metadata_missing)
          | Some _ =>
              let* (id, err) := RemoteID item auth in
              match err with
              | Some e => m_ret (None, Some e)
              | None =>
                  let* resp := Get ("/me/drive/items/" +:+ id +:+ "/content") auth in
                  match resp with
                  | Failure msg => m_ret (None, Some msg)
                  | Success body =>
                      let content := Content.NewDriveItemContent (raw body) in
                      InsertContentID key content ;;
                      m_ret (Some content, None)
                  end
              end
          end
      end
  end.

Definition FlushContentID (key : string) : M unit :=
  let* (content, err) := GetContentID key None in
  match err, content with
  | Some _, _ => m_ret tt
  | None, None => m_panic
  | None, Some c =>
      (* add item to disk *)
      m_modify (fun w => with_content (content_ w)
                           (bucket_put key (elems (Content.data c)) (content_db w)) w) ;;
      (* flush item from memory *)
      m_modify (fun w => with_content (delete key (content_ w)) (content_db w) w)
  end.

End ContentTiers.

(** ** StatFs *)

Record DriveQuota := MkQuota {
  q_Deleted : Z; q_FileCount : Z; q_Remaining : Z; q_State : string;
  q_Total : Z; q_Used : Z      (* uint64 *)
}.

Record Drive := MkDrive { drv_ID : string; drv_DriveType : string; drv_Quota : DriveQuota }.

Definition zero_drive : Drive := MkDrive "" "" (MkQuota 0 0 0 "" 0 0).

Record StatfsOut := MkStatfs {
  Bsize : Z; Blocks : Z; Bfree : Z; Bavail : Z; Files : Z; Ffree : Z; NameLen : Z
}.

(** [decode] is json.Unmarshal into a Drive; the error of Get is logged
    only, and a response that cannot be used leaves the zero Drive. *)
Definition StatFs (decode : Body -> Drive) (fs : FuseFs.FuseFs) (name : string)
  : M StatfsOut :=
  let* resp := Get "/me/drive" (FuseFs.fs_Auth fs) in
  let drive := match resp with
               | Success b => decode b
               | Failure _ => zero_drive
               end in
  let blkSize := 4096 in
  m_ret {| Bsize := to_uint32 blkSize;
           Blocks := q_Total (drv_Quota drive) / blkSize;
           Bfree := q_Remaining (drv_Quota drive) / blkSize;
           Bavail := q_Remaining (drv_Quota drive) / blkSize;
           Files := 100000;
           Ffree := to_uint64 (100000 - q_FileCount (drv_Quota drive));
           NameLen := 260 |}.

(** ** Well-formed worlds

    What the Go runtime guarantees of the heap: a pointer the graph holds
    points to an object, and the allocator hands out unused locations. *)

Definition heap_closed (w : World) : Prop :=
  forall id l, metadata w !! id = Some l -> is_Some (heap w !! l).

Definition alloc_fresh (w : World) : Prop :=
  forall l : loc, heap w !! l <> None -> (l < next_loc w)%positive.

Definition heap_closed_b (w : World) : bool :=
  forallb (fun kv => bool_decide (is_Some (heap w !! kv.2))) (map_to_list (metadata w)).

Definition alloc_fresh_b (w : World) : bool :=
  forallb (fun kv => bool_decide (kv.1 < next_loc w)%positive) (map_to_list (heap w)).



(** The id the server gave a fetched item. *)
Definition id_of_json (j : ItemJSON) : string := or_keep (j_id j) "".

(** The kind of a fetched item: a folder unless it has the file facet. *)
Definition json_is_dir (j : ItemJSON) : bool := IsDir (Unmarshal j zero_item).

(** The outcome of a run, with the world it ends in changed by [f]. *)
Definition on_world {A} (f : World -> World) (r : go (A * World)) : go (A * World) :=
  match r with
  | Ret (a, w) => Ret (a, f w)
  | Panic => Panic
  end.



(** A file made locally and not yet uploaded, [/f], on a drive whose
    owner's filesystem has a token. *)
Definition local_file_item : DriveItem :=
  {| cache := true; content := None; uploadSession := false; hasChanges := false;
     IDInternal := "local-f"; NameInternal := "f"; SizeInternal := 0;
     ModTimeInternal := Some 1600000000; mode := Z.lor S_IFREG 420;
     Parent := Some (MkParent "/" "ROOT"); children := Some []; subdir := 0;
     Folder_ := None; FileInternal := None; Deleted_ := None; ConflictBehavior := "" |}.

Definition local_file_items : list DriveItem :=
  [root_item (Some ["local-f"]) 0; local_file_item].


(** The listing of a root that holds the folder [docs] and the file
    [notes.txt]. *)
Definition docs_json : ItemJSON :=
  {| j_id := Some "D1"; j_name := Some "Docs"; j_size := None;
     j_lastModifiedDatetime := Some 1500000000;
     j_parentReference := Some (Some "/drive/root:", Some "ROOT");
     j_folder := Some (MkFolder 0); j_file := None; j_deleted := None;
     j_conflictBehavior := None |}.

Definition notes_json : ItemJSON :=
  {| j_id := Some "N1"; j_name := Some "notes.txt"; j_size := Some 12;
     j_lastModifiedDatetime := Some 1500000000;
     j_parentReference := Some (Some "/drive/root:", Some "ROOT");
     j_folder := None; j_file := Some (MkFile "text/plain"); j_deleted := None;
     j_conflictBehavior := None |}.

Definition listing_server : list Request -> Request -> Response :=
  fun _ _ => Success (BodyChildren [docs_json; notes_json]).

(** A filesystem whose token is empty. *)
Definition fs_no_token : FuseFs.FuseFs :=
  FuseFs.MkFuseFs (Some (MkAuth "")) (MkOwner 1000 1000).

(** A world in which the content of [F1] is live. *)
Definition abc_content : Content.DriveItemContent :=
  Content.NewDriveItemContent (MkSlice ["a"; "b"; "c"]%byte []).

Definition live_content_world : World :=
  with_content (<["F1" := abc_content]> ∅) ∅ (world_of one_file_items offline).

(** The bytes of a raw body; any other body reads as empty here. *)
Definition raw_bytes (b : Body) : slice :=
  match b with
  | BodyRaw l => MkSlice l []
  | _ => MkSlice [] []
  end.

(** A drive of 10000 bytes, 5000 of them free, holding 7 files. *)
Definition small_drive (b : Body) : Drive :=
  MkDrive "drive" "personal" (MkQuota 0 7 5000 "normal" 10000 5000).

(** * Properties *)

(** ** Machine integers and slices *)

Lemma wrap_int_small z : - 2 ^ 63 <= z < 2 ^ 63 -> wrap_int z = z.
Proof.
  intros H. unfold wrap_int.
  rewrite Z.mod_small by lia. lia.
Qed.

Lemma to_uint64_small z : 0 <= z < 2 ^ 64 -> to_uint64 z = z.
Proof. intros H. unfold to_uint64. now rewrite Z.mod_small. Qed.

Lemma to_uint32_small z : 0 <= z < 2 ^ 32 -> to_uint32 z = z.
Proof. intros H. unfold to_uint32. now rewrite Z.mod_small. Qed.

Lemma len_nonneg {A} (l : list A) : 0 <= len l.
Proof. unfold len. lia. Qed.

Lemma len_app {A} (l1 l2 : list A) : len (l1 ++ l2) = len l1 + len l2.
Proof. unfold len. rewrite length_app. lia. Qed.

(** The window [length a, length a + length b) of [a ++ b ++ rest]. *)
Lemma window_app {A} (a b rest : list A) :
  drop (length a) (take (length a + length b) (a ++ b ++ rest)) = b.
Proof.
  rewrite take_app_add'; [|done].
  rewrite drop_app_length.
  by rewrite take_app_length.
Qed.

Lemma slice_expr_ok s lo hi :
  0 <= lo <= hi -> hi <= slice_cap s ->
  slice_expr s lo hi =
    Ret {| elems := drop (Z.to_nat lo) (take (Z.to_nat hi) (elems s ++ spare s));
           spare := drop (Z.to_nat hi) (elems s ++ spare s) |}.
Proof.
  intros H1 H2. unfold slice_expr.
  rewrite bool_decide_eq_true_2; [done | lia].
Qed.

Lemma slice_expr_panics s lo hi :
  hi < lo -> slice_expr s lo hi = Panic.
Proof.
  intros H. unfold slice_expr.
  rewrite bool_decide_eq_false_2; [done | lia].
Qed.

(** ** content.go: Read and Write *)

Section ContentFacts.

Import Content.
Variable newcap : Z -> Z -> Z.

Lemma append_elems s xs : elems (append newcap s xs) = elems s ++ xs.
Proof. unfold append. by case_bool_decide. Qed.

Lemma NewDriveItemContent_wf s :
  slice_cap s <= maxAlloc -> wf (NewDriveItemContent s).
Proof.
  intros H. split; [|done]. simpl.
  apply to_uint64_small. unfold slice_cap, maxAlloc in *.
  pose proof (len_nonneg (elems s)). pose proof (len_nonneg (spare s)).
  unfold slice_len. lia.
Qed.

(** Write and Truncate, when they return, leave [size] the length of
    [data] as well. *)
Lemma Write_size c data_ off n st c' :
  Write newcap c data_ off = Ret (n, st, c') ->
  size c' = to_uint64 (slice_len (data c')).
Proof.
  unfold Write. intros H.
  destruct (if bool_decide _ then _ else _) as [d|]; simpl in H; [|done].
  by injection H as _ _ <-.
Qed.

Lemma Truncate_size c n st c' :
  Truncate c n = Ret (st, c') -> size c' = slice_len (data c').
Proof.
  unfold Truncate, slice_expr. intros H.
  case_bool_decide as Hn; simpl in H; [|done].
  injection H as _ <-. simpl.
  unfold slice_len, slice_cap, len in *. simpl.
  rewrite drop_0, length_take, length_app. lia.
Qed.

(** What Read returns when the bytes asked for are all there. *)
Lemma Read_window c buf pre mid tl :
  elems (data c) = pre ++ mid ++ tl ->
  length buf = length mid ->
  slice_len (data c) < 2 ^ 62 ->
  Read c buf (len pre) = Ret (mid, OK).
Proof.
  intros Hel Hbuf Hlen.
  assert (Hsl : slice_len (data c) = len pre + len mid + len tl).
  { unfold slice_len. rewrite Hel, !len_app. lia. }
  pose proof (len_nonneg pre). pose proof (len_nonneg mid).
  pose proof (len_nonneg tl). pose proof (len_nonneg (spare (data c))).
  assert (Hb : len buf = len mid) by (unfold len; lia).
  unfold Read.
  rewrite Hb, (wrap_int_small (len pre)), (wrap_int_small (len mid)) by lia.
  rewrite wrap_int_small by lia.
  rewrite bool_decide_eq_false_2 by lia.
  rewrite slice_expr_ok by (unfold slice_cap; fold (slice_len (data c)); lia).
  simpl. f_equal. f_equal.
  rewrite Hel. unfold len.
  rewrite Nat2Z.id, <- Nat2Z.inj_add, Nat2Z.id.
  rewrite <- !app_assoc. apply window_app.
Qed.

(** What Write stores: the old bytes up to the offset, then the data, then
    what was behind the written range (nothing when the buffer grew). *)
Lemma Write_stores c data_ off :
  wf c -> 0 <= off <= size c -> len data_ <= maxAlloc ->
  exists d tl,
    Write newcap c data_ off =
      Ret (to_uint32 (len data_), OK,
           {| data := d; size := slice_len d; hasChanges := true |}) /\
    elems d = take (Z.to_nat off) (elems (data c)) ++ data_ ++ tl /\
    slice_len d <= 2 * maxAlloc.
Proof.
  intros [Hsz Hcap] Hoff Hn.
  pose proof (len_nonneg data_) as Hn0.
  pose proof (len_nonneg (spare (data c))) as Hsp.
  unfold slice_cap in Hcap. fold (slice_len (data c)) in Hcap.
  unfold maxAlloc in *.
  assert (Htake : length (take (Z.to_nat off) (elems (data c))) = Z.to_nat off).
  { rewrite length_take. unfold slice_len, len in *. lia. }
  unfold Write.
  rewrite (wrap_int_small (len data_)), (wrap_int_small off) by lia.
  rewrite (wrap_int_small (size c)) by lia.
  rewrite !wrap_int_small by lia.
  case_bool_decide as Hcmp.
  - (* the buffer grows: append *)
    rewrite slice_expr_ok by (unfold slice_cap; fold (slice_len (data c)); lia).
    simpl.
    set (pre := {| elems := _; spare := _ |}).
    assert (Hpre : elems pre = take (Z.to_nat off) (elems (data c))).
    { subst pre. simpl. rewrite take_app_le; [done|].
      unfold slice_len, len in *. lia. }
    assert (Hlen : slice_len (append newcap pre data_) = off + len data_).
    { unfold slice_len. rewrite append_elems, len_app, Hpre.
      unfold len at 1. rewrite Htake. lia. }
    exists (append newcap pre data_), [].
    split; [|split].
    + rewrite to_uint64_small; [done | lia].
    + by rewrite append_elems, Hpre, app_nil_r.
    + lia.
  - (* inside the buffer: copy in place *)
    unfold copy_at.
    rewrite slice_expr_ok by (unfold slice_cap; fold (slice_len (data c)); lia).
    simpl.
    assert (Hdst : length (drop (Z.to_nat off)
                     (take (Z.to_nat (slice_len (data c))) (elems (data c) ++ spare (data c))))
                   = (length (elems (data c)) - Z.to_nat off)%nat).
    { rewrite length_drop, take_app_le, take_ge; unfold slice_len, len; lia. }
    rewrite Hdst.
    assert (Hk : Nat.min (length (elems (data c)) - Z.to_nat off)%nat (length data_) = length data_).
    { unfold slice_len, len in *. lia. }
    rewrite Hk, firstn_all.
    set (d := {| elems := _; spare := _ |}).
    assert (Hlen : slice_len d = slice_len (data c)).
    { subst d. unfold slice_len. simpl. rewrite !len_app.
      unfold len. rewrite Htake, length_drop. unfold slice_len, len in *. lia. }
    exists d, (drop (Z.to_nat off + length data_) (elems (data c))).
    split; [|split].
    + rewrite to_uint64_small; [done | lia].
    + done.
    + lia.
Qed.

(** Reading back what was just written returns it, whatever its length. *)
Lemma Write_then_Read c data_ buf off :
  wf c -> 0 <= off <= size c -> len data_ <= maxAlloc ->
  length buf = length data_ ->
  exists n c',
    Write newcap c data_ off = Ret (n, OK, c') /\
    n = to_uint32 (len data_) /\
    Read c' buf off = Ret (data_, OK).
Proof.
  intros Hwf Hoff Hn Hbuf.
  destruct (Write_stores c data_ off Hwf Hoff Hn) as (d & tl & HW & Hel & Hlen).
  eexists _, _. split; [exact HW|]. split; [done|].
  destruct Hwf as [Hsz _].
  assert (Hoff' : off = len (take (Z.to_nat off) (elems (data c)))).
  { unfold len. rewrite length_take. unfold slice_len, len in *. lia. }
  rewrite Hoff' at 1.
  apply Read_window with (tl := tl); simpl; [done | done |].
  unfold maxAlloc in *. lia.
Qed.

End ContentFacts.

(** Reading inside the buffer returns the bytes from the offset on, at most
    as many as the caller's buffer holds. *)
Lemma Read_in_range c buf off :
  0 <= off <= slice_len (Content.data c) ->
  slice_len (Content.data c) <= maxAlloc -> len buf <= maxAlloc ->
  Content.Read c buf off =
    Ret (take (length buf) (drop (Z.to_nat off) (elems (Content.data c))), OK).
Proof.
  intros Hoff Hlen Hbuf.
  pose proof (len_nonneg buf). pose proof (len_nonneg (spare (Content.data c))).
  unfold maxAlloc in *. unfold Content.Read.
  rewrite (wrap_int_small off), (wrap_int_small (len buf)) by lia.
  rewrite wrap_int_small by lia.
  case_bool_decide as Hend.
  - rewrite slice_expr_ok by (unfold slice_cap; fold (slice_len (Content.data c)); lia).
    simpl. do 2 f_equal.
    unfold slice_len, len in *.
    rewrite Nat2Z.id, take_app_length, take_ge; [done|].
    rewrite length_drop. lia.
  - rewrite slice_expr_ok by (unfold slice_cap; fold (slice_len (Content.data c)); lia).
    simpl. do 2 f_equal.
    unfold slice_len, len in *.
    rewrite take_app_le by lia.
    rewrite skipn_firstn_comm. f_equal. lia.
Qed.

(** Reading from an offset beyond the end of the buffer panics: [end] is
    clamped to the length and the slice bounds are then out of order. *)
Lemma Read_beyond_end c buf off :
  slice_len (Content.data c) < off -> off < 2 ^ 62 -> len buf < 2 ^ 62 ->
  Content.Read c buf off = Panic.
Proof.
  intros Hoff Hmax Hbuf.
  pose proof (len_nonneg buf). pose proof (len_nonneg (elems (Content.data c))).
  unfold Content.Read. unfold slice_len in *.
  rewrite (wrap_int_small off), (wrap_int_small (len buf)) by lia.
  rewrite wrap_int_small by lia.
  rewrite bool_decide_eq_true_2 by lia.
  by rewrite slice_expr_panics.
Qed.

(** C5 (as amended): on a buffer of size s, for every offset off <= s and
    every data shorter than 2^32 bytes, write(off, data) reports len(data)
    bytes written and a following read(off, len(data)) returns exactly data. *)
Theorem C5_write_then_read (newcap : Z -> Z -> Z) c data_ buf off :
  Content.wf c -> 0 <= off <= Content.size c ->
  len data_ < 2 ^ 32 -> length buf = length data_ ->
  exists c',
    Content.Write newcap c data_ off = Ret (len data_, OK, c') /\
    Content.Read c' buf off = Ret (data_, OK).
Proof.
  intros Hwf Hoff Hn Hbuf.
  pose proof (len_nonneg data_).
  destruct (Write_then_Read newcap c data_ buf off) as (n & c' & HW & Hrep & HR);
    [done | done | unfold maxAlloc; lia | done |].
  exists c'. split; [|done].
  rewrite HW, Hrep, to_uint32_small; [done | lia].
Qed.

Lemma C5_write_then_read_witness :
  exists c',
    Content.Write (fun _ needed => needed)
      (Content.NewDriveItemContent (MkSlice ["a"; "b"; "c"]%byte []))
      ["x"; "y"]%byte 2 = Ret (len ["x"; "y"]%byte, OK, c') /\
    Content.Read c' ["0"; "0"]%byte 2 = Ret (["x"; "y"]%byte, OK).
Proof.
  apply (C5_write_then_read (fun _ needed => needed)
           (Content.NewDriveItemContent (MkSlice ["a"; "b"; "c"]%byte []))
           ["x"; "y"]%byte ["0"; "0"]%byte 2).
  - apply NewDriveItemContent_wf. vm_compute. discriminate.
  - vm_compute. split; discriminate.
  - vm_compute. reflexivity.
  - reflexivity.
Defined.

(** Data of exactly 2^32 bytes is reported as 0 bytes written. *)
Lemma Write_report_wraps data_ :
  len data_ = 2 ^ 32 ->
  ~ exists c',
      Content.Write (fun _ needed => needed)
        (Content.NewDriveItemContent (MkSlice [] [])) data_ 0 = Ret (len data_, OK, c').
Proof.
  intros Hlen [c' HW].
  destruct (Write_then_Read (fun _ needed => needed)
              (Content.NewDriveItemContent (MkSlice [] [])) data_ data_ 0)
    as (n & c'' & HW' & Hrep & _).
  - apply NewDriveItemContent_wf. vm_compute. discriminate.
  - vm_compute. split; discriminate.
  - rewrite Hlen. vm_compute. discriminate.
  - reflexivity.
  - rewrite HW in HW'. injection HW' as Hn _.
    rewrite Hlen in Hn, Hrep. rewrite <- Hn in Hrep.
    vm_compute in Hrep. discriminate.
Qed.

(** C5 as stated fails on data of 2^32 bytes: the count Write returns is a
    uint32, so it reports 0 bytes written.  (It also fails below offset 0,
    where Write panics.) *)
Lemma C5_report_wraps :
  Content.wf (Content.NewDriveItemContent (MkSlice [] [])) /\
  0 <= 0 <= Content.size (Content.NewDriveItemContent (MkSlice [] [])) /\
  (~ exists c',
      Content.Write (fun _ needed => needed)
        (Content.NewDriveItemContent (MkSlice [] []))
        (replicate (Z.to_nat (2 ^ 32)) "000"%byte) 0
      = Ret (len (replicate (Z.to_nat (2 ^ 32)) "000"%byte), OK, c')) /\
  Content.Write (fun _ needed => needed)
    (Content.NewDriveItemContent (MkSlice [] [])) ["x"]%byte (-1) = Panic.
Proof.
  split; [|split; [|split]].
  - apply NewDriveItemContent_wf. vm_compute. discriminate.
  - vm_compute. split; discriminate.
  - apply Write_report_wraps.
    unfold len. rewrite length_replicate. apply Z2Nat.id. lia.
  - vm_compute. reflexivity.
Qed.

(** C6 (failing input): a buffer of three bytes read at offset 5 makes Read
    panic with slice bounds out of range instead of returning an empty
    result. *)
Theorem C6_Read_past_end_panics :
  Content.Read (Content.NewDriveItemContent (MkSlice ["a"; "b"; "c"]%byte []))
    ["0"; "0"]%byte 5 = Panic.
Proof. vm_compute. reflexivity. Qed.

(** ** Strings *)

Lemma Contains_app_r a b sub : Contains b sub = true -> Contains (a +:+ b) sub = true.
Proof.
  intros H. induction a as [|ch a IH]; [exact H|].
  simpl. rewrite IH. apply orb_true_r.
Qed.

Lemma not_exist_message prefix :
  Contains (prefix +:+ not_exist_suffix) "does not exist" = true.
Proof. apply Contains_app_r. vm_compute. reflexivity. Qed.

Lemma ignore_spec path : FuseFs.ignore path = true <-> In path FuseFs.ignoredFiles.
Proof.
  unfold FuseFs.ignore. rewrite existsb_exists. split.
  - intros (x & Hin & Heq). apply String.eqb_eq in Heq. by subst.
  - intros Hin. exists path. split; [done|]. apply String.eqb_refl.
Qed.

(** ** The cache *)

(** C10: for every id that names an item of the graph that is not a
    directory, GetChildrenID returns an empty children map and no error,
    whatever the credentials, and leaves the world as it was: no request is
    made and nothing is written. *)
Theorem C10_children_of_file w id auth l d :
  metadata w !! id = Some l -> heap w !! l = Some d -> IsDir d = false ->
  GetChildrenID id auth w = Ret ((Some ∅, None), w).
Proof.
  intros Hm Hh Hdir.
  unfold GetChildrenID, m_bind, GetID. rewrite Hm.
  unfold load. rewrite Hh, Hdir. reflexivity.
Qed.

Lemma C10_children_of_file_witness :
  GetChildrenID "F1" None (world_of one_file_items offline)
  = Ret ((Some ∅, None), world_of one_file_items offline).
Proof.
  apply (C10_children_of_file (world_of one_file_items offline) "F1" None
           2%positive (file_item "F1" "x" "/drive/root:" "ROOT")).
  - vm_compute. reflexivity.
  - vm_compute. reflexivity.
  - vm_compute. reflexivity.
Defined.

(** C9 (as amended): for every id a present in the graph whose parent is
    present too, and every id b other than a, MoveID(a, b) gives the item
    the id b and rewrites the first entry for a in its parent's children,
    so that afterwards get(b) is the item previously at a and get(a) is
    absent; on an id absent from the graph MoveID fails with the error
    "Could not get item" and changes nothing. *)
Theorem C9_MoveID :
  (forall w a b l d ip q pd,
      metadata w !! a = Some l -> heap w !! l = Some d ->
      Parent d = Some ip -> metadata w !! ID_ ip = Some q -> heap w !! q = Some pd ->
      a <> b ->
      exists w',
        MoveID a b w = Ret (None, w') /\
        metadata w' !! b = Some l /\
        metadata w' !! a = None /\
        heap w' !! l =
          Some (with_id b
                  (if decide (l = q)
                   then with_children (option_map (replace_first a b) (children d)) d
                   else d)) /\
        (exists pd', heap w' !! q = Some pd' /\
                     children pd' = option_map (replace_first a b) (children pd)) /\
        (forall c, c <> a -> c <> b -> metadata w' !! c = metadata w !! c) /\
        (forall p, p <> l -> p <> q -> heap w' !! p = heap w !! p))
  /\
  (forall w a b,
      metadata w !! a = None ->
      MoveID a b w = Ret (Some ("Could not get item: " +:+ a), w)).
Proof.
  split.
  - intros w a b l d ip q pd Hma Hhl Hpar Hmq Hhq Hab.
    assert (Hrun : forall dl, heap (with_heap
                     (<[q := with_children (option_map (replace_first a b) (children pd)) pd]>
                        (heap w)) (next_loc w) w) !! l = Some dl ->
              MoveID a b w =
                Ret (None,
                     with_metadata (delete a (<[b := l]> (metadata w)))
                       (with_heap
                          (<[l := with_id b dl]>
                             (<[q := with_children
                                       (option_map (replace_first a b) (children pd)) pd]>
                                (heap w)))
                          (next_loc w) w))).
    { intros dl Hdl.
      unfold MoveID, m_bind, GetID. rewrite Hma.
      unfold load at 1. rewrite Hhl, Hpar. rewrite Hmq.
      unfold update at 1, m_bind, load at 1. rewrite Hhq.
      unfold store, m_modify. unfold update, m_bind, load.
      rewrite Hdl. reflexivity. }
    destruct (decide (l = q)) as [->|Hlq].
    + assert (pd = d) by congruence. subst pd.
      eexists. split; [apply Hrun; simpl; apply lookup_insert_eq|].
      simpl. split_and!.
      * rewrite lookup_delete_ne by done. apply lookup_insert_eq.
      * apply lookup_delete_eq.
      * rewrite lookup_insert_eq. reflexivity.
      * eexists. split; [apply lookup_insert_eq | reflexivity].
      * intros c Hca Hcb. rewrite lookup_delete_ne, lookup_insert_ne; done.
      * intros p Hp _. rewrite !lookup_insert_ne; done.
    + eexists. split.
      { apply Hrun. simpl. rewrite lookup_insert_ne by done. exact Hhl. }
      simpl. split_and!.
      * rewrite lookup_delete_ne by done. apply lookup_insert_eq.
      * apply lookup_delete_eq.
      * rewrite lookup_insert_eq. reflexivity.
      * eexists. split.
        -- rewrite lookup_insert_ne by done. apply lookup_insert_eq.
        -- reflexivity.
      * intros c Hca Hcb. rewrite lookup_delete_ne, lookup_insert_ne; done.
      * intros p Hp Hpq. rewrite !lookup_insert_ne; done.
  - intros w a b Hma.
    unfold MoveID, m_bind, GetID. rewrite Hma. reflexivity.
Qed.

Lemma C9_MoveID_witness :
  (exists w',
      MoveID "F1" "REMOTE" (world_of one_file_items offline) = Ret (None, w') /\
      metadata w' !! "REMOTE" = Some 2%positive /\
      metadata w' !! "F1" = None /\
      children_at w' "ROOT" = Some ["REMOTE"]) /\
  MoveID "NOPE" "REMOTE" (world_of one_file_items offline)
  = Ret (Some "Could not get item: NOPE", world_of one_file_items offline).
Proof.
  split.
  - destruct (proj1 C9_MoveID (world_of one_file_items offline) "F1" "REMOTE"
                2%positive (file_item "F1" "x" "/drive/root:" "ROOT")
                (MkParent "/drive/root:" "ROOT") 1%positive
                (root_item (Some ["F1"]) 0))
      as (w' & Hrun & Hb & Ha & _ & (pd' & Hq & Hkids) & Hframe & _).
    + vm_compute. reflexivity.
    + vm_compute. reflexivity.
    + reflexivity.
    + vm_compute. reflexivity.
    + vm_compute. reflexivity.
    + discriminate.
    + exists w'. split_and!; [done | done | done |].
      unfold children_at, item_at.
      rewrite (Hframe "ROOT") by discriminate.
      replace (metadata (world_of one_file_items offline) !! "ROOT")
        with (Some 1%positive) by (vm_compute; reflexivity).
      rewrite Hq. exact Hkids.
  - apply (proj2 C9_MoveID). vm_compute. reflexivity.
Defined.

(** C9 as stated fails when b is a itself: the item is stored under b and
    then deleted under a, so that get(b) is absent afterwards.  It also
    fails on the root, whose parent is not in the graph: MoveID panics. *)
Lemma C9_same_id_loses_item :
  item_at (world_of one_file_items offline) "F1"
    = Some (file_item "F1" "x" "/drive/root:" "ROOT") /\
  observe (MoveID "F1" "F1" (world_of one_file_items offline))
          (fun w' => item_at w' "F1") = Some (None, None) /\
  is_Some (item_at (world_of one_file_items offline) "ROOT") /\
  MoveID "ROOT" "R2" (world_of one_file_items offline) = Panic.
Proof.
  split_and!; [vm_compute; reflexivity | vm_compute; reflexivity | | vm_compute; reflexivity].
  eexists. vm_compute. reflexivity.
Qed.

(** ** DeletePath *)

(** Whenever the path resolves, DeletePath only drops the entry of the item
    from the graph: the heap, and with it every children list and every
    subdirectory count, is as the resolution left it. *)
Lemma DeletePath_found key w l d w1 :
  GetPath (ToLower key) (Some (MkAuth "")) w = Ret ((Some l, None), w1) ->
  heap w1 !! l = Some d ->
  DeletePath key w = Ret (tt, with_metadata (delete (ID d) (metadata w1)) w1).
Proof.
  intros Hget Hl.
  unfold DeletePath, m_bind. rewrite Hget. simpl.
  unfold load. rewrite Hl. reflexivity.
Qed.

(** C2 (failing input): with the file [/x] in the graph, DeletePath and
    Unlink remove the item but leave its id in the children list of the
    root; removeParent, which detaches it, is only called when the path does
    not resolve. *)
Theorem C2_delete_keeps_parent_entry :
  children_at (world_of one_file_items accepting) "ROOT" = Some ["F1"] /\
  observe (DeletePath "/x" (world_of one_file_items accepting))
          (fun w' => (item_at w' "F1", children_at w' "ROOT"))
    = Some (tt, (None, Some ["F1"])) /\
  observe (FuseFs.Unlink fs0 "x" (world_of one_file_items accepting))
          (fun w' => (item_at w' "F1", children_at w' "ROOT"))
    = Some (OK, (None, Some ["F1"])).
Proof. split_and!; vm_compute; reflexivity. Qed.

(** What the call of removeParent that DeletePath skips would have done. *)
Lemma removeParent_detaches :
  observe (removeParent (Some 2%positive) (world_of one_file_items accepting))
          (fun w' => children_at w' "ROOT") = Some (tt, Some []) /\
  observe (removeParent (Some 2%positive) (world_of one_dir_items accepting))
          (fun w' => (children_at w' "ROOT", option_map subdir (item_at w' "ROOT")))
    = Some (tt, (Some [], Some 0)).
Proof. split; vm_compute; reflexivity. Qed.

(** ** The subdirectory count *)

Lemma subdir_ok_b_sound w d : subdir_ok_b w d = true -> subdir_ok w d.
Proof.
  unfold subdir_ok_b, subdir_ok. intros H Hdir ids Hkids.
  rewrite Hdir, Hkids in H. simpl in H. by apply Z.eqb_eq.
Qed.

Lemma subdir_inv_b_sound w : subdir_inv_b w = true -> subdir_inv w.
Proof.
  unfold subdir_inv_b, subdir_inv, item_at. intros H id d Hat.
  destruct (metadata w !! id) as [l|] eqn:Hm; [|done].
  rewrite forallb_forall in H.
  specialize (H (id, l)). simpl in H. rewrite Hat in H.
  apply subdir_ok_b_sound, H.
  apply list_elem_of_In, elem_of_map_to_list, Hm.
Qed.

(** C3 (failing input): the graph with the directory [/d] satisfies the
    invariant; after DeletePath("/d") the root still counts one
    subdirectory although none of its children is a directory of the graph. *)
Theorem C3_delete_breaks_subdir_count :
  subdir_inv (world_of one_dir_items accepting) /\
  exists w',
    DeletePath "/d" (world_of one_dir_items accepting) = Ret (tt, w') /\
    option_map subdir (item_at w' "ROOT") = Some 1 /\
    children_at w' "ROOT" = Some ["D1"] /\
    count_dirs w' ["D1"] = 0 /\
    ~ subdir_inv w'.
Proof.
  split.
  { apply subdir_inv_b_sound. vm_compute. reflexivity. }
  eexists. split.
  { apply (DeletePath_found "/d" _ 2%positive
             (folder_item "D1" "d" "/drive/root:" "ROOT" (Some []) 0)
             (world_of one_dir_items accepting)).
    - vm_compute. reflexivity.
    - vm_compute. reflexivity. }
  assert (Hroot : item_at (with_metadata
                    (delete (ID (folder_item "D1" "d" "/drive/root:" "ROOT" (Some []) 0))
                       (metadata (world_of one_dir_items accepting)))
                    (world_of one_dir_items accepting)) "ROOT"
                  = Some (root_item (Some ["D1"]) 1)) by (vm_compute; reflexivity).
  split_and!; [vm_compute; reflexivity .. |].
  intros Hinv. specialize (Hinv "ROOT" _ Hroot eq_refl ["D1"] eq_refl).
  vm_compute in Hinv. discriminate.
Qed.

(** ** The handlers *)

(** C1 (failing input): a PATCH that fails with an error other than
    resourceModified is not seen by Rename.  Renaming [/x] to [/y] then
    answers EIO, not EREMOTEIO, and leaves the item named [y]; moving
    [/a/f] to [/b/f] answers OK. *)
Theorem C1_Rename_ignores_failed_patch :
  observe (FuseFs.Rename fs0 "x" "y"
             (world_of one_file_items (patch_fails "network timeout")))
          (fun w' => (name_at w' "F1", map r_method (calls w')))
    = Some (EIO, (Some "y", [PATCH])) /\
  observe (FuseFs.Rename fs0 "a/f" "b/f"
             (world_of two_dirs_items (patch_fails "network timeout")))
          (fun w' => (name_at w' "F1", map r_method (calls w')))
    = Some (OK, (Some "f", [PATCH])).
Proof. split; vm_compute; reflexivity. Qed.

(** The path of Rename that does revert: both PATCH requests fail, the
    first with resourceModified. *)
Lemma Rename_reverts_after_retry :
  observe (FuseFs.Rename fs0 "x" "y"
             (world_of one_file_items (patch_fails "resourceModified")))
          (fun w' => (name_at w' "F1", map r_method (calls w')))
    = Some (EREMOTEIO, (Some "x", [PATCH; PATCH])).
Proof. vm_compute. reflexivity. Qed.

(** C4 (as amended): for every path whose resolution fails with the
    not-found error, GetAttr and Unlink answer ENOENT; Open and OpenDir
    answer EREMOTEIO there, and Chown ENOSYS. *)
Theorem C4_not_found_status fs name w :
  not_found (FuseFs.fs_Auth fs) (FuseFs.leadingSlash name) w ->
  (exists w', FuseFs.run fs FuseFs.OpGetAttr name w = Ret (ENOENT, w')) /\
  (exists w', FuseFs.run fs FuseFs.OpUnlink name w = Ret (ENOENT, w')) /\
  (forall flags, exists w',
      FuseFs.run fs (FuseFs.OpOpen flags) name w = Ret (EREMOTEIO, w')) /\
  (exists w', FuseFs.run fs FuseFs.OpOpenDir name w = Ret (EREMOTEIO, w')) /\
  (forall uid gid, FuseFs.run fs (FuseFs.OpChown uid gid) name w = Ret (ENOSYS, w)).
Proof.
  intros (prefix & w' & Hget). split_and!.
  - unfold FuseFs.run, FuseFs.GetAttr, m_bind.
    destruct (FuseFs.ignore _); [by eexists|].
    rewrite Hget. by eexists.
  - unfold FuseFs.run, FuseFs.Unlink, m_bind.
    rewrite Hget. rewrite not_exist_message. by eexists.
  - intros flags. unfold FuseFs.run, FuseFs.Open, m_bind.
    rewrite Hget. by eexists.
  - unfold FuseFs.run, FuseFs.OpenDir, GetChildrenPath, m_bind.
    rewrite Hget. by eexists.
  - reflexivity.
Qed.

Lemma C4_not_found_status_witness :
  (exists w', FuseFs.run fs0 FuseFs.OpGetAttr "nope"
                (world_of empty_drive_items accepting) = Ret (ENOENT, w')) /\
  (exists w', FuseFs.run fs0 FuseFs.OpUnlink "nope"
                (world_of empty_drive_items accepting) = Ret (ENOENT, w')).
Proof.
  destruct (C4_not_found_status fs0 "nope" (world_of empty_drive_items accepting))
    as (Hattr & Hunlink & _).
  - exists "nope", (world_of empty_drive_items accepting).
    vm_compute. reflexivity.
  - split; assumption.
Defined.

(** C4 as stated fails: on a path that resolves to not-found, Open answers
    EREMOTEIO and Chown ENOSYS (and Chmod dereferences the nil item). *)
Lemma C4_open_is_not_ENOENT :
  not_found (FuseFs.fs_Auth fs0) (FuseFs.leadingSlash "nope")
    (world_of empty_drive_items accepting) /\
  FuseFs.run fs0 (FuseFs.OpOpen 0) "nope" (world_of empty_drive_items accepting)
    = Ret (EREMOTEIO, world_of empty_drive_items accepting) /\
  FuseFs.run fs0 (FuseFs.OpChown 0 0) "nope" (world_of empty_drive_items accepting)
    = Ret (ENOSYS, world_of empty_drive_items accepting) /\
  FuseFs.run fs0 (FuseFs.OpChmod 420) "nope" (world_of empty_drive_items accepting)
    = Panic.
Proof.
  split_and!.
  - exists "nope", (world_of empty_drive_items accepting).
    vm_compute. reflexivity.
  - vm_compute. reflexivity.
  - vm_compute. reflexivity.
  - vm_compute. reflexivity.
Qed.

(** C8 (as amended): for every path of the ignore list GetAttr answers
    ENOENT and leaves the world as it was: the graph is not touched and no
    request is made.  The other handlers do not consult the list. *)
Theorem C8_GetAttr_ignored_path fs name w :
  In (FuseFs.leadingSlash name) FuseFs.ignoredFiles ->
  FuseFs.GetAttr fs name w = Ret ((None, ENOENT), w).
Proof.
  intros Hin. apply ignore_spec in Hin.
  unfold FuseFs.GetAttr. rewrite Hin. reflexivity.
Qed.

Lemma C8_GetAttr_ignored_path_witness :
  FuseFs.GetAttr fs0 ".DS_Store" (world_of [root_item None 0] offline)
  = Ret ((None, ENOENT), world_of [root_item None 0] offline).
Proof.
  apply (C8_GetAttr_ignored_path fs0 ".DS_Store" (world_of [root_item None 0] offline)).
  vm_compute. tauto.
Defined.

(** C8 as stated fails for the other handlers: Create on [/.hidden]
    answers OK and inserts an item, Mkdir on [/.Trash] posts to the server,
    and Open on [/.hidden] fetches the children of the root. *)
Lemma C8_other_handlers_do_not_ignore :
  In (FuseFs.leadingSlash ".hidden") FuseFs.ignoredFiles /\
  In (FuseFs.leadingSlash ".Trash") FuseFs.ignoredFiles /\
  observe (FuseFs.run fs0 (FuseFs.OpCreate 0 420) ".hidden"
             (world_of empty_drive_items accepting))
          (fun w' => (children_at w' "ROOT",
                      name_at w' "local-aaaaaaaaaaaaaaaaaaaa"))
    = Some (OK, (Some ["local-aaaaaaaaaaaaaaaaaaaa"], Some ".hidden")) /\
  observe (FuseFs.run fs0 (FuseFs.OpMkdir 493) ".Trash"
             (world_of empty_drive_items accepting))
          (fun w' => map r_method (calls w'))
    = Some (OK, [POST]) /\
  observe (FuseFs.run fs0 (FuseFs.OpOpen 0) ".hidden"
             (world_of [root_item None 0] (fun _ _ => Success (BodyChildren []))))
          (fun w' => (children_at w' "ROOT", map r_path (calls w')))
    = Some (EREMOTEIO, (Some [], ["/me/drive/items/ROOT/children"])).
Proof.
  split_and!; [vm_compute; tauto | vm_compute; tauto | vm_compute; reflexivity ..].
Qed.

(** ** The delta feed *)

Lemma applyDeltas_nop items w : applyDeltas items w = Ret (tt, w).
Proof.
  induction items as [|item items IH]; [reflexivity|].
  simpl. unfold m_bind, applyDelta, m_ret. exact IH.
Qed.

(** C7 (as amended): applying a delta item changes nothing, whether or not
    its deleted.state is present: applyDelta is a stub.  A poll of the
    delta feed never panics and leaves the graph and the content store as
    they were. *)
Theorem C7_applyDelta_changes_nothing :
  (forall item w, applyDelta item w = Ret (None, w)) /\
  (forall url auth w,
      exists r w',
        pollDeltas url auth w = Ret (r, w') /\
        heap w' = heap w /\ metadata w' = metadata w /\
        content_ w' = content_ w /\ content_db w' = content_db w).
Proof.
  split; [reflexivity|].
  intros url auth w.
  unfold pollDeltas, m_bind, m_get, Get, request.
  destruct (server w (calls w) _) as [body|msg].
  - rewrite applyDeltas_nop.
    destruct (negb _); eexists _, _; (split; [reflexivity|]); done.
  - eexists _, _. split; [reflexivity|]. done.
Qed.

(** C7 as stated fails: with [/a/b] in the graph and a delta page that
    marks [b] deleted, the item is still there after the poll, GetAttr of
    [/a/b] answers OK and OpenDir of [/a] lists [b]. *)
Lemma C7_deleted_item_stays :
  j_deleted b_deleted = Some (MkDeleted "deleted") /\
  is_Some (item_at (world_of a_b_items delta_server) "B") /\
  observe (applyDelta (Unmarshal b_deleted zero_item) (world_of a_b_items delta_server))
          (fun w' => (name_at w' "B", children_at w' "A"))
    = Some (None, (Some "b", Some ["B"])) /\
  match pollDeltas graphURL (Some (MkAuth "token")) (world_of a_b_items delta_server) with
  | Ret (_, w') =>
      name_at w' "B" = Some "b" /\
      observe (FuseFs.run fs0 FuseFs.OpGetAttr "a/b" w') (fun _ => tt) = Some (OK, tt) /\
      observe (FuseFs.OpenDir fs0 "a" w') (fun _ => tt)
        = Some ((Some [("b", 33188)], OK), tt)
  | Panic => False
  end.
Proof.
  split_and!; [reflexivity | eexists; vm_compute; reflexivity | vm_compute; reflexivity |].
  vm_compute. split_and!; reflexivity.
Qed.

(** ** Insertion keeps the subdirectory count

    The other half of the story of C3: setParent, as InsertPath calls it,
    keeps the count of the parent in step with its children. *)



(** Running the heap accesses of a monadic term one after the other. *)
Ltac heap_step :=
  first [ rewrite lookup_insert_eq
        | rewrite lookup_insert_ne by done
        | match goal with H : heap _ !! _ = Some _ |- _ => rewrite H end
        | match goal with H : Parent _ = Some _ |- _ => rewrite H end ].

Ltac heap_steps :=
  unfold update, m_bind, load, store, m_modify, m_ret; cbn;
  repeat (heap_step; cbn).

(** What setParent does to an item and a parent that are two objects. *)
Lemma setParent_runs w li lp d pd ip :
  heap w !! li = Some d -> heap w !! lp = Some pd -> li <> lp ->
  Parent d = Some ip ->
  setParent (Some li) (Some lp) w =
    Ret (tt,
         with_heap
           (<[li := with_parent (Some (MkParent (Path_ ip) (IDInternal pd))) d]>
              (<[lp := with_children (append_id (children pd) (IDInternal d))
                         (if IsDir d then with_subdir (to_uint32 (subdir pd + 1)) pd
                          else pd)]>
                 (heap w)))
           (next_loc w) w).
Proof.
  intros Hli Hlp Hne Hpar.
  unfold setParent, m_bind, load. rewrite Hli.
  destruct (IsDir d) eqn:Hdir.
  - heap_steps. unfold with_heap. cbn. by rewrite insert_insert_eq.
  - heap_steps. reflexivity.
Qed.

Lemma IsDir_with_parent p d : IsDir (with_parent p d) = IsDir d.
Proof. reflexivity. Qed.


Lemma IsDir_with_subdir n d : IsDir (with_subdir n d) = IsDir d.
Proof. reflexivity. Qed.


(** Mkdir and Create on an empty drive, by way of InsertPath and MoveID:
    the count of the root follows. *)
Lemma Mkdir_keeps_subdir_count :
  observe (FuseFs.Mkdir fs0 "d" 493 (world_of empty_drive_items folder_created))
          (fun w' => (subdir_inv_b w', children_at w' "ROOT",
                      option_map subdir (item_at w' "ROOT"), name_at w' "D9"))
    = Some (OK, (true, Some ["D9"], Some 1, Some "d")) /\
  observe (FuseFs.Create fs0 "f" 0 420 (world_of empty_drive_items offline))
          (fun w' => (subdir_inv_b w', children_at w' "ROOT",
                      option_map subdir (item_at w' "ROOT")))
    = Some ((Some 2%positive, OK),
            (true, Some ["local-aaaaaaaaaaaaaaaaaaaa"], Some 0)).
Proof. split; vm_compute; reflexivity. Qed.

(** * Further properties of the code *)

(** ** content.go *)

Section ContentMore.

Import Content.
Variable newcap : Z -> Z -> Z.

(** The bytes Write leaves in the buffer. *)
Lemma Write_layout c data_ off :
  wf c -> 0 <= off <= size c -> len data_ <= maxAlloc ->
  exists d,
    Write newcap c data_ off =
      Ret (to_uint32 (len data_), OK,
           {| data := d; size := slice_len d; hasChanges := true |}) /\
    elems d = take (Z.to_nat off) (elems (data c)) ++ data_
              ++ drop (Z.to_nat off + length data_) (elems (data c)).
Proof.
  intros [Hsz Hcap] Hoff Hn.
  pose proof (len_nonneg data_) as Hn0.
  pose proof (len_nonneg (spare (data c))) as Hsp.
  unfold slice_cap in Hcap. fold (slice_len (data c)) in Hcap.
  unfold maxAlloc in *.
  assert (Htake : length (take (Z.to_nat off) (elems (data c))) = Z.to_nat off).
  { rewrite length_take. unfold slice_len, len in *. lia. }
  unfold Write.
  rewrite (wrap_int_small (len data_)), (wrap_int_small off) by lia.
  rewrite (wrap_int_small (size c)) by lia.
  rewrite !wrap_int_small by lia.
  case_bool_decide as Hcmp.
  - rewrite slice_expr_ok by (unfold slice_cap; fold (slice_len (data c)); lia).
    simpl.
    set (pre := {| elems := _; spare := _ |}).
    assert (Hpre : elems pre = take (Z.to_nat off) (elems (data c))).
    { subst pre. simpl. rewrite take_app_le; [done|].
      unfold slice_len, len in *. lia. }
    assert (Hlen : slice_len (append newcap pre data_) = off + len data_).
    { unfold slice_len. rewrite append_elems, len_app, Hpre.
      unfold len at 1. rewrite Htake. lia. }
    exists (append newcap pre data_). split.
    + rewrite to_uint64_small; [done | lia].
    + rewrite append_elems, Hpre. rewrite (drop_ge (elems (data c))).
      * by rewrite app_nil_r.
      * unfold slice_len, len in *. lia.
  - unfold copy_at.
    rewrite slice_expr_ok by (unfold slice_cap; fold (slice_len (data c)); lia).
    simpl.
    assert (Hdst : length (drop (Z.to_nat off)
                     (take (Z.to_nat (slice_len (data c))) (elems (data c) ++ spare (data c))))
                   = (length (elems (data c)) - Z.to_nat off)%nat).
    { rewrite length_drop, take_app_le, take_ge; unfold slice_len, len; lia. }
    rewrite Hdst.
    assert (Hk : Nat.min (length (elems (data c)) - Z.to_nat off)%nat (length data_)
                 = length data_).
    { unfold slice_len, len in *. lia. }
    rewrite Hk, firstn_all.
    set (d := {| elems := _; spare := _ |}).
    assert (Hlen : slice_len d = slice_len (data c)).
    { subst d. unfold slice_len. simpl. rewrite !len_app.
      unfold len. rewrite Htake, length_drop. unfold slice_len, len in *. lia. }
    exists d. split; [|done].
    rewrite to_uint64_small; [done | lia].
Qed.

(** X1: a write at an offset within the buffer keeps every byte outside the
    written range; the buffer afterwards is as long as the longer of its old
    length and the end of the write, and is marked changed. *)
Theorem Write_keeps_the_rest c data_ off :
  wf c -> 0 <= off <= size c -> len data_ <= maxAlloc ->
  exists n c',
    Write newcap c data_ off = Ret (n, OK, c') /\
    hasChanges c' = true /\
    size c' = Z.max (size c) (off + len data_) /\
    size c' = slice_len (data c') /\
    take (Z.to_nat off) (elems (data c')) = take (Z.to_nat off) (elems (data c)) /\
    drop (Z.to_nat off + length data_) (elems (data c'))
      = drop (Z.to_nat off + length data_) (elems (data c)).
Proof.
  intros Hwf Hoff Hn.
  destruct (Write_layout c data_ off Hwf Hoff Hn) as (d & HW & Hel).
  destruct Hwf as [Hsz Hcap].
  assert (Htake : length (take (Z.to_nat off) (elems (data c))) = Z.to_nat off).
  { rewrite length_take. unfold slice_len, len in *. lia. }
  eexists _, _. split; [exact HW|]. cbn.
  split_and!; [done | | done | |].
  - unfold slice_len. rewrite Hel, !len_app. unfold len.
    rewrite Htake, length_drop. unfold slice_len, len in *. lia.
  - rewrite Hel. by rewrite take_app_length'.
  - rewrite Hel, app_assoc. rewrite drop_app_length'; [done|].
    rewrite length_app. lia.
Qed.

(** X2: a write at an offset beyond the capacity of the buffer panics: the
    gap is not filled. *)
Theorem Write_beyond_capacity_panics c data_ off :
  wf c -> slice_cap (data c) < off -> off < 2 ^ 62 -> len data_ <= maxAlloc ->
  Write newcap c data_ off = Panic.
Proof.
  intros [Hsz Hcap] Hoff Hmax Hn.
  pose proof (len_nonneg data_) as Hn0.
  pose proof (len_nonneg (spare (data c))) as Hsp.
  pose proof (len_nonneg (elems (data c))) as Hel.
  unfold slice_cap in *. fold (slice_len (data c)) in *. unfold maxAlloc in *.
  unfold Write.
  rewrite (wrap_int_small (len data_)), (wrap_int_small off) by lia.
  rewrite (wrap_int_small (size c)) by (unfold slice_len in *; lia).
  rewrite !wrap_int_small by (unfold slice_len in *; lia).
  rewrite bool_decide_eq_true_2 by (unfold slice_len in *; lia).
  unfold slice_expr. rewrite bool_decide_eq_false_2; [done|].
  unfold slice_cap, slice_len in *. lia.
Qed.

End ContentMore.

(** X3: Truncate to a size within the buffer keeps exactly the first
    [size] bytes: the buffer is marked changed, its size is [size], and a
    read from offset 0 returns those bytes however large the caller's
    buffer is. *)
Theorem Truncate_shortens c n buf :
  0 <= n <= slice_len (Content.data c) ->
  slice_len (Content.data c) <= maxAlloc -> n <= len buf <= maxAlloc ->
  exists c',
    Content.Truncate c n = Ret (OK, c') /\
    Content.size c' = n /\ Content.hasChanges c' = true /\
    elems (Content.data c') = take (Z.to_nat n) (elems (Content.data c)) /\
    Content.Read c' buf 0 = Ret (take (Z.to_nat n) (elems (Content.data c)), OK).
Proof.
  intros Hn Hlen Hbuf.
  pose proof (len_nonneg (spare (Content.data c))) as Hsp.
  assert (Hl : length (take (Z.to_nat n) (elems (Content.data c))) = Z.to_nat n).
  { rewrite length_take. unfold slice_len, len in *. lia. }
  assert (HT : Content.Truncate c n =
               Ret (OK, {| Content.data :=
                             MkSlice (take (Z.to_nat n) (elems (Content.data c)))
                               (drop (Z.to_nat n)
                                  (elems (Content.data c) ++ spare (Content.data c)));
                           Content.size := n; Content.hasChanges := true |})).
  { unfold Content.Truncate.
    rewrite slice_expr_ok by (unfold slice_cap; fold (slice_len (Content.data c)); lia).
    change (Z.to_nat 0) with 0%nat. rewrite drop_0.
    rewrite take_app_le; [done|]. unfold slice_len, len in *. lia. }
  eexists. split; [exact HT|].
  split_and!; [done | done | done |].
  rewrite Read_in_range.
  - change (Z.to_nat 0) with 0%nat. rewrite drop_0.
    cbn [Content.data elems]. rewrite take_ge; [done|]. unfold len in *. lia.
  - cbn [Content.data elems]. unfold slice_len, len. cbn [elems]. lia.
  - cbn [Content.data]. unfold slice_len, len, maxAlloc in *. cbn [elems]. lia.
  - lia.
Qed.

(** Truncate never zero-fills.  A size beyond the capacity panics, and
    a size between the length and the capacity brings back the bytes that
    lie behind the end of the buffer in its backing array. *)
Lemma Truncate_does_not_extend c n :
  slice_len (Content.data c) <= n ->
  (slice_cap (Content.data c) < n -> Content.Truncate c n = Panic) /\
  (n <= slice_cap (Content.data c) ->
   exists c',
     Content.Truncate c n = Ret (OK, c') /\
     elems (Content.data c') =
       elems (Content.data c)
       ++ take (Z.to_nat n - length (elems (Content.data c))) (spare (Content.data c))).
Proof.
  intros Hn. pose proof (len_nonneg (elems (Content.data c))) as Hel.
  split.
  - intros Hcap. unfold Content.Truncate, slice_expr.
    rewrite bool_decide_eq_false_2; [done | lia].
  - intros Hcap. unfold Content.Truncate.
    rewrite slice_expr_ok by (unfold slice_len in *; lia).
    cbn -[Z.to_nat]. eexists. split; [reflexivity|]. cbn -[Z.to_nat].
    rewrite drop_0. rewrite take_app_ge; [done|].
    unfold slice_len, len in *. lia.
Qed.

(** X4: a Truncate to a size beyond the capacity of the buffer panics:
    growing a file by truncation is not supported. *)
Theorem Truncate_beyond_capacity_panics c n :
  slice_cap (Content.data c) < n -> Content.Truncate c n = Panic.
Proof.
  intros Hcap. unfold Content.Truncate, slice_expr.
  rewrite bool_decide_eq_false_2; [done | lia].
Qed.

(** What Truncate returns for a size up to the capacity. *)
Lemma Truncate_runs c n :
  0 <= n <= slice_cap (Content.data c) ->
  Content.Truncate c n =
    Ret (OK, {| Content.data :=
                  MkSlice (take (Z.to_nat n) (elems (Content.data c) ++ spare (Content.data c)))
                          (drop (Z.to_nat n) (elems (Content.data c) ++ spare (Content.data c)));
                Content.size := n; Content.hasChanges := true |}).
Proof.
  intros Hn. unfold Content.Truncate. rewrite slice_expr_ok by lia.
  change (Z.to_nat 0) with 0%nat. by rewrite drop_0.
Qed.

(** X5: truncating down to [n] and then up to [m], no further than the
    old length, succeeds and brings the cut bytes back instead of zeros:
    the buffer then holds the first [m] bytes it held at the start. *)
Theorem Truncate_down_then_up c n m :
  0 <= n <= m -> m <= slice_len (Content.data c) ->
  exists c1 c2,
    Content.Truncate c n = Ret (OK, c1) /\
    Content.Truncate c1 m = Ret (OK, c2) /\
    Content.size c2 = m /\
    elems (Content.data c2) = take (Z.to_nat m) (elems (Content.data c)).
Proof.
  intros Hnm Hm.
  pose proof (len_nonneg (spare (Content.data c))) as Hsp.
  set (whole := elems (Content.data c) ++ spare (Content.data c)).
  assert (Hwhole : len whole = slice_cap (Content.data c)).
  { unfold whole, slice_cap. apply len_app. }
  assert (Hcap : slice_len (Content.data c) <= slice_cap (Content.data c)).
  { unfold slice_cap, slice_len. lia. }
  assert (Hjoin : take (Z.to_nat n) whole ++ drop (Z.to_nat n) whole = whole)
    by apply take_drop.
  eexists _, _. split; [apply Truncate_runs; lia|].
  fold whole. split.
  { apply Truncate_runs. unfold slice_cap. cbn [Content.data elems spare].
    rewrite <- len_app, Hjoin. lia. }
  cbn [Content.data Content.size elems spare]. split; [done|].
  rewrite Hjoin. unfold whole. rewrite take_app_le; [done|].
  unfold slice_len, len in *. lia.
Qed.

(** X6: a read that starts inside the buffer returns the bytes from the
    offset on, as many as the caller's buffer holds or as are left,
    whichever is fewer, and never panics. *)
Theorem Read_short_at_end c buf off :
  0 <= off <= slice_len (Content.data c) ->
  slice_len (Content.data c) <= maxAlloc -> len buf <= maxAlloc ->
  exists out,
    Content.Read c buf off = Ret (out, OK) /\
    out = take (length buf) (drop (Z.to_nat off) (elems (Content.data c))) /\
    len out = Z.min (len buf) (slice_len (Content.data c) - off).
Proof.
  intros Hoff Hlen Hbuf. eexists. split; [by apply Read_in_range|].
  split; [done|].
  unfold slice_len, len in *. rewrite length_take, length_drop. lia.
Qed.

(** X7: a read that starts beyond the end of the buffer panics, whatever the
    length asked for. *)
Theorem Read_beyond_end_panics c buf off :
  slice_len (Content.data c) < off -> off < 2 ^ 62 -> len buf < 2 ^ 62 ->
  Content.Read c buf off = Panic.
Proof. apply Read_beyond_end. Qed.

(** ** Resolution: GetChildrenID and GetPath *)





(** The cached loop leaves the world alone. *)
Lemma cached_children_world ids : forall acc w m w',
  cached_children ids acc w = Ret (m, w') -> w' = w.
Proof.
  induction ids as [|id ids IH]; intros acc w m w' H.
  - by injection H as _ <-.
  - simpl in H. unfold m_bind, GetID in H.
    destruct (metadata w !! id) as [l|]; [|by eapply IH].
    unfold load in H. destruct (heap w !! l) as [d|]; [|done].
    by eapply IH.
Qed.

(** In a closed heap the cached loop returns. *)
Lemma cached_children_returns w ids :
  heap_closed w -> forall acc, exists m, cached_children ids acc w = Ret (m, w).
Proof.
  intros Hclosed. induction ids as [|id ids IH]; intros acc.
  - by eexists.
  - simpl. unfold m_bind, GetID.
    destruct (metadata w !! id) as [l|] eqn:Hm; [|apply IH].
    unfold load. destruct (Hclosed id l Hm) as [d ->]. apply IH.
Qed.

(** Every entry of the map the cached loop builds was in the map it started
    from or is a child that the graph holds, under its lower-cased name. *)
Lemma cached_children_sound w ids : forall acc m w',
  cached_children ids acc w = Ret (m, w') ->
  forall k l, m !! k = Some l ->
    acc !! k = Some l \/
    exists id d, In id ids /\ metadata w !! id = Some l /\ heap w !! l = Some d /\
                 k = ToLower (Name d).
Proof.
  induction ids as [|id ids IH]; intros acc m w' H k l Hk.
  - injection H as <- _. by left.
  - simpl in H. unfold m_bind, GetID in H.
    destruct (metadata w !! id) as [l0|] eqn:Hm.
    + unfold load in H. destruct (heap w !! l0) as [d|] eqn:Hh; [|done].
      destruct (IH _ _ _ H k l Hk) as [Hacc|(id' & d' & Hin & ? & ? & ?)].
      * destruct (decide (ToLower (Name d) = k)) as [<-|Hne].
        -- rewrite lookup_insert_eq in Hacc. injection Hacc as <-.
           right. exists id, d. split_and!; [by left | done..].
        -- rewrite lookup_insert_ne in Hacc by done. by left.
      * right. exists id', d'. split_and!; [by right | done..].
    + destruct (IH _ _ _ H k l Hk) as [Hacc|(id' & d' & Hin & ? & ? & ?)]; [by left|].
      right. exists id', d'. split_and!; [by right | done..].
Qed.

(** Every name the cached loop starts from or meets has an entry. *)
Lemma cached_children_complete w ids : forall acc m w',
  cached_children ids acc w = Ret (m, w') ->
  (forall k, is_Some (acc !! k) -> is_Some (m !! k)) /\
  (forall id l d, In id ids -> metadata w !! id = Some l -> heap w !! l = Some d ->
                  is_Some (m !! ToLower (Name d))).
Proof.
  induction ids as [|id ids IH]; intros acc m w' H.
  - injection H as <- _. split; [done | intros ? ? ? []].
  - simpl in H. unfold m_bind, GetID in H.
    destruct (metadata w !! id) as [l0|] eqn:Hm.
    + unfold load in H. destruct (heap w !! l0) as [d0|] eqn:Hh; [|done].
      destruct (IH _ _ _ H) as [Hmono Hall]. split.
      * intros k Hk. apply Hmono.
        destruct (decide (ToLower (Name d0) = k)) as [<-|Hne].
        -- rewrite lookup_insert_eq. by eexists.
        -- by rewrite lookup_insert_ne.
      * intros id' l d [<-|Hin] Hm' Hh'.
        -- assert (l = l0) by congruence. subst l.
           assert (d = d0) by congruence. subst d.
           apply Hmono. rewrite lookup_insert_eq. by eexists.
        -- by eapply Hall.
    + destruct (IH _ _ _ H) as [Hmono Hall]. split; [done|].
      intros id' l d [<-|Hin] Hm' Hh'; [congruence|]. by eapply Hall.
Qed.

(** X8: for a directory whose children are enumerated, GetChildrenID makes
    no request and changes nothing, whatever the credentials.  Every entry
    of the map it returns is a listed child that is still in the graph,
    under its lower-cased name, and the lower-cased name of every such child
    is a key of the map (ids that were deleted are skipped; of children
    whose names differ only in case one is kept). *)
Theorem GetChildrenID_of_enumerated_directory w id auth l d ids :
  heap_closed w ->
  metadata w !! id = Some l -> heap w !! l = Some d ->
  IsDir d = true -> children d = Some ids ->
  exists m,
    GetChildrenID id auth w = Ret ((Some m, None), w) /\
    (forall k c, m !! k = Some c ->
       exists cid cd, In cid ids /\ metadata w !! cid = Some c /\
                      heap w !! c = Some cd /\ k = ToLower (Name cd)) /\
    (forall cid c cd, In cid ids -> metadata w !! cid = Some c -> heap w !! c = Some cd ->
       is_Some (m !! ToLower (Name cd))).
Proof.
  intros Hclosed Hm Hh Hdir Hkids.
  destruct (cached_children_returns w ids Hclosed ∅) as [m Hrun].
  exists m. split_and!.
  - unfold GetChildrenID, m_bind, GetID. rewrite Hm.
    unfold load. rewrite Hh, Hdir, Hkids. cbn. by rewrite Hrun.
  - intros k c Hk.
    destruct (cached_children_sound _ _ _ _ _ Hrun k c Hk) as [Hacc|H]; [|done].
    by rewrite lookup_empty in Hacc.
  - intros cid c cd Hin Hmc Hhc.
    by apply (proj2 (cached_children_complete _ _ _ _ _ Hrun) cid c cd).
Qed.

(** GetChildrenID without a token leaves the world alone. *)
Lemma GetChildrenID_no_token w id auth r w' :
  no_token auth = true ->
  GetChildrenID id auth w = Ret (r, w') -> w' = w.
Proof.
  intros Hauth H. unfold GetChildrenID, m_bind, GetID in H.
  destruct (metadata w !! id) as [l|]; [|by injection H as _ <-].
  unfold load in H. destruct (heap w !! l) as [d|]; [|done].
  destruct (negb (IsDir d)); [by injection H as _ <-|].
  destruct (children d) as [ids|].
  - destruct (cached_children ids ∅ w) as [[m w1]|] eqn:Hc; [|done].
    apply cached_children_world in Hc. subst w1. by injection H as _ <-.
  - rewrite Hauth in H. unfold m_lift in H.
    destruct (Path d); [|done]. by injection H as _ <-.
Qed.

Lemma GetPath_walk_no_token auth rest : forall seen lastID item w r w',
  no_token auth = true ->
  GetPath_walk seen rest lastID item auth w = Ret (r, w') -> w' = w.
Proof.
  induction rest as [|name rest IH]; intros seen lastID item w r w' Hauth H.
  - by injection H as _ <-.
  - simpl in H. unfold m_bind in H.
    destruct (GetChildrenID lastID auth w) as [[[kids err] w1]|] eqn:Hc; [|done].
    apply GetChildrenID_no_token in Hc; [|done]. subst w1.
    destruct err; [by injection H as _ <-|].
    destruct (default ∅ kids !! name) as [l|]; [|by injection H as _ <-].
    unfold load in H. destruct (heap w !! l) as [d|]; [|done].
    by eapply IH.
Qed.

Lemma GetPath_no_token auth path w r w' :
  no_token auth = true -> GetPath path auth w = Ret (r, w') -> w' = w.
Proof.
  intros Hauth H. unfold GetPath, m_bind, m_get in H.
  destruct (String.eqb path "/").
  - unfold GetID in H. by injection H as _ <-.
  - by eapply GetPath_walk_no_token.
Qed.

Lemma GetPath_walk_item_or_error auth rest : forall seen lastID item w it e w',
  GetPath_walk seen rest lastID item auth w = Ret ((it, Some e), w') -> it = None.
Proof.
  induction rest as [|name rest IH]; intros seen lastID item w it e w' H.
  - discriminate.
  - simpl in H. unfold m_bind in H.
    destruct (GetChildrenID lastID auth w) as [[[kids err] w1]|]; [|done].
    destruct err; [by injection H as <- _|].
    destruct (default ∅ kids !! name) as [l|]; [|by injection H as <- _].
    unfold load in H. destruct (heap w1 !! l) as [d|]; [|done].
    by eapply IH.
Qed.

Lemma GetPath_item_or_error auth path w it e w' :
  GetPath path auth w = Ret ((it, Some e), w') -> it = None.
Proof.
  intros H. unfold GetPath, m_bind, m_get in H.
  destruct (String.eqb path "/").
  - unfold GetID in H. discriminate.
  - by eapply GetPath_walk_item_or_error.
Qed.

(** X9: a resolution without a token, nil or empty, never fetches: whenever
    GetPath returns, the world is exactly as before, with no request made
    and nothing cached.  It also never returns an item together with an
    error. *)
Theorem GetPath_without_token_changes_nothing auth path w it err w' :
  no_token auth = true ->
  GetPath path auth w = Ret ((it, err), w') ->
  w' = w /\ (err <> None -> it = None).
Proof.
  intros Hauth H. split; [by eapply GetPath_no_token|].
  destruct err as [e|]; [|done]. intros _. by eapply GetPath_item_or_error.
Qed.


(** A resolution without a token does not look at the request log. *)
Lemma cached_children_calls cs ids : forall acc w,
  cached_children ids acc (with_calls cs w)
  = on_world (with_calls cs) (cached_children ids acc w).
Proof.
  induction ids as [|id ids IH]; intros acc w; [reflexivity|].
  simpl. unfold m_bind, GetID. cbn [metadata with_calls].
  destruct (metadata w !! id) as [l|]; [|apply IH].
  unfold load. cbn [heap with_calls].
  destruct (heap w !! l) as [d|]; [apply IH | reflexivity].
Qed.

Lemma GetChildrenID_calls cs id auth w :
  no_token auth = true ->
  GetChildrenID id auth (with_calls cs w)
  = on_world (with_calls cs) (GetChildrenID id auth w).
Proof.
  intros Hauth. unfold GetChildrenID, m_bind, GetID. cbn [metadata with_calls].
  destruct (metadata w !! id) as [l|]; [|reflexivity].
  unfold load. cbn [heap with_calls].
  destruct (heap w !! l) as [d|]; [|reflexivity].
  destruct (negb (IsDir d)); [reflexivity|].
  destruct (children d) as [ids|].
  - rewrite cached_children_calls.
    by destruct (cached_children ids ∅ w) as [[m w1]|].
  - rewrite Hauth. unfold m_lift. by destruct (Path d).
Qed.

Lemma GetPath_walk_calls cs auth rest : forall seen lastID item w,
  no_token auth = true ->
  GetPath_walk seen rest lastID item auth (with_calls cs w)
  = on_world (with_calls cs) (GetPath_walk seen rest lastID item auth w).
Proof.
  induction rest as [|name rest IH]; intros seen lastID item w Hauth; [reflexivity|].
  simpl. unfold m_bind. rewrite GetChildrenID_calls by done.
  destruct (GetChildrenID lastID auth w) as [[[kids err] w1]|]; [|reflexivity].
  cbn [on_world]. destruct err; [reflexivity|].
  destruct (default ∅ kids !! name) as [l|]; [|reflexivity].
  unfold load. cbn [heap with_calls].
  destruct (heap w1 !! l) as [d|]; [by apply IH | reflexivity].
Qed.

Lemma GetPath_calls cs auth path w :
  no_token auth = true ->
  GetPath path auth (with_calls cs w) = on_world (with_calls cs) (GetPath path auth w).
Proof.
  intros Hauth. unfold GetPath, m_bind, m_get. cbn [root with_calls].
  destruct (String.eqb path "/"); [reflexivity|].
  by apply GetPath_walk_calls.
Qed.

(** ** DeletePath, again *)

(** X11: DeletePath never sends a request and never writes to an item:
    whenever it returns, the heap and the request log are as before and the
    graph has lost one entry, that of the item the path resolved to. *)
Theorem DeletePath_only_drops_the_entry key w w' :
  DeletePath key w = Ret (tt, w') ->
  exists l d,
    GetPath (ToLower key) (Some (MkAuth "")) w = Ret ((Some l, None), w) /\
    heap w !! l = Some d /\
    w' = with_metadata (delete (ID d) (metadata w)) w.
Proof.
  intros H. unfold DeletePath, m_bind in H.
  destruct (GetPath (ToLower key) (Some (MkAuth "")) w) as [[[it err] w1]|] eqn:Hget;
    [|done].
  assert (w1 = w).
  { apply (GetPath_no_token (Some (MkAuth "")) (ToLower key) w (it, err) w1);
      [reflexivity | exact Hget]. }
  subst w1.
  destruct err as [e|].
  - apply GetPath_item_or_error in Hget. subst it. done.
  - destruct it as [l|]; [|done].
    cbn in H. unfold load in H.
    destruct (heap w !! l) as [d|] eqn:Hl; [|done].
    exists l, d. split_and!; [done | done |].
    by injection H as <-.
Qed.

(** X12: DeletePath panics on every path that does not resolve from the
    graph as cached: the nil item is dereferenced. *)
Theorem DeletePath_of_unresolved_path_panics key w it e w1 :
  GetPath (ToLower key) (Some (MkAuth "")) w = Ret ((it, Some e), w1) ->
  DeletePath key w = Panic.
Proof.
  intros Hget. pose proof (GetPath_item_or_error _ _ _ _ _ _ Hget). subst it.
  unfold DeletePath, m_bind. rewrite Hget. reflexivity.
Qed.

(** ** Enumeration from the server *)

Lemma to_uint32_range z : 0 <= to_uint32 z < 2 ^ 32.
Proof. unfold to_uint32. apply Z.mod_pos_bound. lia. Qed.

Lemma to_uint32_add_l a b : to_uint32 (to_uint32 a + b) = to_uint32 (a + b).
Proof. unfold to_uint32. apply Zplus_mod_idemp_l. Qed.

(** One round of the loop over the fetched children. *)
Lemma fetched_children_step l j rest acc w d :
  heap w !! l = Some d -> l <> next_loc w ->
  fetched_children l (j :: rest) acc w =
    fetched_children l rest
      (<[ToLower (Name (Unmarshal j zero_item)) := next_loc w]> acc)
      (with_heap
         (<[l := (if json_is_dir j
                  then with_subdir (to_uint32 (subdir d + 1))
                  else fun x => x)
                   (with_children (append_id (children d) (id_of_json j)) d)]>
            (<[next_loc w := Unmarshal j zero_item]> (heap w)))
         (Pos.succ (next_loc w))
         (with_metadata (<[id_of_json j := next_loc w]> (metadata w)) w)).
Proof.
  intros Hl Hne. cbn [fetched_children].
  unfold m_bind at 1. unfold alloc.
  unfold m_bind at 1. unfold load. cbn [heap with_heap].
  rewrite lookup_insert_eq.
  unfold m_bind at 1. unfold InsertID, m_modify.
  unfold m_bind at 1. unfold update at 1, m_bind at 1, load.
  cbn [heap with_heap with_metadata]. rewrite lookup_insert_ne by done. rewrite Hl.
  unfold store, m_modify.
  fold (json_is_dir j). unfold m_bind at 1.
  destruct (json_is_dir j).
  - unfold update, m_bind at 1, load, store, m_modify.
    cbn [heap with_heap]. rewrite lookup_insert_eq.
    f_equal. unfold with_heap, with_metadata. cbn. f_equal.
    by rewrite insert_insert_eq.
  - unfold m_ret. reflexivity.
Qed.

Lemma fetched_children_runs l js : forall acc w d kids,
  heap w !! l = Some d -> children d = Some kids ->
  0 <= subdir d < 2 ^ 32 -> alloc_fresh w ->
  exists m w',
    fetched_children l js acc w = Ret (m, w') /\
    heap w' !! l =
      Some (with_subdir (to_uint32 (subdir d + len (List.filter json_is_dir js)))
              (with_children (Some (kids ++ map id_of_json js)) d)) /\
    calls w' = calls w /\ alloc_fresh w' /\
    (next_loc w <= next_loc w')%positive /\
    (forall p, p <> l -> (p < next_loc w)%positive -> heap w' !! p = heap w !! p) /\
    (forall x, ~ In x (map id_of_json js) -> metadata w' !! x = metadata w !! x) /\
    (forall j, In j js ->
       exists c j', metadata w' !! id_of_json j = Some c /\ In j' js /\
                    id_of_json j' = id_of_json j /\
                    heap w' !! c = Some (Unmarshal j' zero_item)).
Proof.
  induction js as [|j rest IH]; intros acc w d kids Hl Hkids Hrange Hfresh.
  - exists acc, w.
    split_and!; [done | | done | done | lia | done | done | intros ? []].
    rewrite Hl. f_equal. cbn. rewrite app_nil_r, Z.add_0_r.
    rewrite to_uint32_small by done.
    destruct d; cbn in *; by subst.
  - assert (Hlt : (l < next_loc w)%positive) by (apply Hfresh; congruence).
    assert (Hne : l <> next_loc w) by lia.
    rewrite (fetched_children_step l j rest acc w d Hl Hne).
    set (d1 := (if json_is_dir j then with_subdir (to_uint32 (subdir d + 1)) else fun x => x)
                 (with_children (append_id (children d) (id_of_json j)) d)).
    set (w1 := with_heap _ _ _).
    assert (Hl1 : heap w1 !! l = Some d1) by (subst w1; cbn; apply lookup_insert_eq).
    assert (Hkids1 : children d1 = Some (kids ++ [id_of_json j])).
    { subst d1. rewrite Hkids. by destruct (json_is_dir j). }
    assert (Hsub1 : subdir d1 = if json_is_dir j then to_uint32 (subdir d + 1) else subdir d).
    { subst d1. by destruct (json_is_dir j). }
    assert (Hrange1 : 0 <= subdir d1 < 2 ^ 32).
    { rewrite Hsub1. destruct (json_is_dir j); [apply to_uint32_range | done]. }
    assert (Hfresh1 : alloc_fresh w1).
    { intros p Hp. subst w1. cbn in *.
      destruct (decide (p = l)) as [->|Hpl]; [lia|].
      rewrite lookup_insert_ne in Hp by done.
      destruct (decide (p = next_loc w)) as [->|Hpn]; [lia|].
      rewrite lookup_insert_ne in Hp by done.
      specialize (Hfresh p Hp). lia. }
    destruct (IH (<[ToLower (Name (Unmarshal j zero_item)) := next_loc w]> acc)
                w1 d1 (kids ++ [id_of_json j]) Hl1 Hkids1 Hrange1 Hfresh1)
      as (m & w' & Hrun & Hl' & Hcalls & Hfresh' & Hnext & Hframe & Hmeta & Hall).
    exists m, w'. split_and!; [exact Hrun | | exact Hcalls | exact Hfresh' | | | |].
    + rewrite Hl'. f_equal. cbn [map List.filter].
      rewrite <- app_assoc. cbn [app].
      assert (Hcount : to_uint32 (subdir d1 + len (List.filter json_is_dir rest))
                       = to_uint32 (subdir d + len (if json_is_dir j
                                                    then j :: List.filter json_is_dir rest
                                                    else List.filter json_is_dir rest))).
      { rewrite Hsub1. destruct (json_is_dir j); [|done].
        rewrite to_uint32_add_l. f_equal. unfold len. cbn [length]. lia. }
      rewrite Hcount. subst d1.
      destruct d; destruct (json_is_dir j); reflexivity.
    + subst w1. cbn in Hnext. lia.
    + intros p Hpl Hp. rewrite Hframe; [| done | subst w1; cbn; lia].
      subst w1. cbn. rewrite lookup_insert_ne by done.
      rewrite lookup_insert_ne by lia. done.
    + intros x Hx. rewrite Hmeta.
      * subst w1. cbn. rewrite lookup_insert_ne; [done|].
        intros Heq. apply Hx. left. done.
      * intros Hin. apply Hx. by right.
    + intros j0 [<-|Hin].
      * destruct (In_dec string_dec (id_of_json j) (map id_of_json rest)) as [Hdup|Hnodup].
        -- apply in_map_iff in Hdup as (j1 & Hid & Hj1).
           destruct (Hall j1 Hj1) as (c & j' & ? & ? & ? & ?).
           exists c, j'. split_and!; [congruence | by right | congruence | done].
        -- exists (next_loc w), j. split_and!; [| by left | done |].
           ++ rewrite Hmeta by done. subst w1. cbn. apply lookup_insert_eq.
           ++ rewrite Hframe; [| lia | subst w1; cbn; lia].
              subst w1. cbn. rewrite lookup_insert_ne by lia. apply lookup_insert_eq.
      * destruct (Hall j0 Hin) as (c & j' & ? & ? & ? & ?).
        exists c, j'. split_and!; [done | by right | done | done].
Qed.

(** X13: an enumeration from the server.  For a directory whose children
    are not enumerated yet, with a token and a server that answers,
    GetChildrenID makes exactly one request, records the ids the server
    sent, in the order sent, as the children of the directory, adds the
    number of folders among them to its subdirectory count, and stores every
    item sent in the graph under its id. *)
Theorem GetChildrenID_enumerates w id auth l d body :
  metadata w !! id = Some l -> heap w !! l = Some d ->
  IsDir d = true -> children d = None -> 0 <= subdir d < 2 ^ 32 ->
  no_token auth = false -> alloc_fresh w ->
  server w (calls w) (MkRequest GET (ChildrenPathID id) auth NoBody) = Success body ->
  exists m w' d',
    GetChildrenID id auth w = Ret ((Some m, None), w') /\
    calls w' = calls w ++ [MkRequest GET (ChildrenPathID id) auth NoBody] /\
    heap w' !! l = Some d' /\
    children d' = Some (map id_of_json (children_of_body body)) /\
    subdir d' = to_uint32 (subdir d
                           + len (List.filter json_is_dir (children_of_body body))) /\
    (forall j, In j (children_of_body body) ->
       exists c j', metadata w' !! id_of_json j = Some c /\
                    In j' (children_of_body body) /\
                    id_of_json j' = id_of_json j /\
                    heap w' !! c = Some (Unmarshal j' zero_item)).
Proof.
  intros Hm Hh Hdir Hkids Hrange Hauth Hfresh Hsrv.
  set (req := MkRequest GET (ChildrenPathID id) auth NoBody) in *.
  set (w0 := with_heap (<[l := with_children (Some []) d]> (heap w)) (next_loc w)
               (with_calls (calls w ++ [req]) w)).
  assert (Hl0 : heap w0 !! l = Some (with_children (Some []) d))
    by (subst w0; cbn; apply lookup_insert_eq).
  assert (Hfresh0 : alloc_fresh w0).
  { intros p Hp. subst w0. cbn in *.
    destruct (decide (p = l)) as [->|Hpl]; [apply Hfresh; congruence|].
    rewrite lookup_insert_ne in Hp by done. by apply Hfresh. }
  destruct (fetched_children_runs l (children_of_body body) ∅ w0
              (with_children (Some []) d) [] Hl0 eq_refl Hrange Hfresh0)
    as (m & w' & Hrun & Hl' & Hcalls & _ & _ & _ & _ & Hall).
  eexists m, w', _. split_and!; [| | exact Hl' | reflexivity | reflexivity | exact Hall].
  - unfold GetChildrenID, m_bind, GetID. rewrite Hm.
    unfold load. rewrite Hh, Hdir, Hkids. cbn [negb]. rewrite Hauth.
    unfold Get, request. fold req. rewrite Hsrv.
    unfold update, m_bind, load, store, m_modify. cbn [heap with_calls].
    rewrite Hh.
    match goal with
    | |- context [fetched_children _ _ _ ?W] => change W with w0
    end.
    by rewrite Hrun.
  - rewrite Hcalls. subst w0. reflexivity.
Qed.

(** ** MoveID *)

(** What MoveID does to an item whose parent is another object. *)
Lemma MoveID_runs w a b l d ip q pd :
  metadata w !! a = Some l -> heap w !! l = Some d ->
  Parent d = Some ip -> metadata w !! ID_ ip = Some q -> heap w !! q = Some pd ->
  l <> q ->
  MoveID a b w =
    Ret (None,
         with_metadata (delete a (<[b := l]> (metadata w)))
           (with_heap
              (<[l := with_id b d]>
                 (<[q := with_children (option_map (replace_first a b) (children pd)) pd]>
                    (heap w)))
              (next_loc w) w)).
Proof.
  intros Hma Hhl Hpar Hmq Hhq Hlq.
  unfold MoveID, m_bind, GetID. rewrite Hma.
  unfold load at 1. rewrite Hhl, Hpar, Hmq.
  unfold update, m_bind, load, store, m_modify. rewrite Hhq.
  cbn [heap with_heap]. rewrite lookup_insert_ne by done. rewrite Hhl.
  reflexivity.
Qed.

Lemma replace_first_back a b ids :
  ~ In b ids -> replace_first b a (replace_first a b ids) = ids.
Proof.
  induction ids as [|x ids IH]; intros Hb; [reflexivity|].
  cbn [replace_first].
  destruct (String.eqb_spec x a) as [->|Hxa].
  - cbn [replace_first]. by rewrite String.eqb_refl.
  - cbn [replace_first].
    destruct (String.eqb_spec x b) as [->|Hxb].
    + exfalso. apply Hb. by left.
    + f_equal. apply IH. intros Hin. apply Hb. by right.
Qed.

Lemma with_id_back d b : with_id (IDInternal d) (with_id b d) = d.
Proof. by destruct d. Qed.

(** Worlds are equal when their fields are. *)
Lemma world_ext w w' :
  heap w' = heap w -> next_loc w' = next_loc w -> metadata w' = metadata w ->
  content_ w' = content_ w -> content_db w' = content_db w -> root w' = root w ->
  cache_auth w' = cache_auth w -> deltaLink w' = deltaLink w -> calls w' = calls w ->
  server w' = server w -> rand_strings w' = rand_strings w ->
  rand_used w' = rand_used w -> now w' = now w ->
  w' = w.
Proof. destruct w, w'. cbn. intros. by subst. Qed.

(** X14: moving an item to a new id and back restores the graph.  For an
    item stored under its own id [a], whose parent is in the graph, and an
    id [b] that is neither in the graph nor among the children of the
    parent, MoveID(a, b) followed by MoveID(b, a) succeeds and ends in
    the world it started from. *)
Theorem MoveID_there_and_back w a b l d ip q pd :
  metadata w !! a = Some l -> heap w !! l = Some d -> IDInternal d = a ->
  Parent d = Some ip -> metadata w !! ID_ ip = Some q -> heap w !! q = Some pd ->
  l <> q ->
  metadata w !! b = None ->
  (forall ids, children pd = Some ids -> ~ In b ids) ->
  exists w1, MoveID a b w = Ret (None, w1) /\ MoveID b a w1 = Ret (None, w).
Proof.
  intros Hma Hhl Hid Hpar Hmq Hhq Hlq Hmb Hkids.
  assert (Hab : a <> b) by congruence.
  assert (Hpa : ID_ ip <> a) by congruence.
  assert (Hpb : ID_ ip <> b) by congruence.
  set (pd1 := with_children (option_map (replace_first a b) (children pd)) pd).
  set (w1 := with_metadata (delete a (<[b := l]> (metadata w)))
               (with_heap (<[l := with_id b d]> (<[q := pd1]> (heap w))) (next_loc w) w)).
  exists w1. split; [by apply (MoveID_runs w a b l d ip q pd)|].
  rewrite (MoveID_runs w1 b a l (with_id b d) ip q pd1); subst w1; cbn;
    [ | rewrite lookup_delete_ne by done; apply lookup_insert_eq
      | apply lookup_insert_eq
      | exact Hpar
      | rewrite lookup_delete_ne, lookup_insert_ne by done; exact Hmq
      | rewrite lookup_insert_ne by done; apply lookup_insert_eq
      | exact Hlq ].
  do 2 f_equal.
  apply world_ext; cbn; [ | reflexivity | | reflexivity..].
  - apply map_eq. intros p.
    destruct (decide (p = l)) as [->|Hpl].
    + rewrite lookup_insert_eq, Hhl. f_equal. rewrite <- Hid. apply with_id_back.
    + rewrite lookup_insert_ne by done.
      destruct (decide (p = q)) as [->|Hpq].
      * rewrite lookup_insert_eq, Hhq. f_equal. subst pd1.
        destruct pd as [? ? ? ? ? ? ? ? ? ? kids ? ? ? ? ?]. cbn in *.
        destruct kids as [ids|]; cbn; [|reflexivity].
        by rewrite replace_first_back by (by apply Hkids).
      * by rewrite !lookup_insert_ne.
  - apply map_eq. intros x.
    destruct (decide (x = b)) as [->|Hxb].
    + by rewrite lookup_delete_eq, Hmb.
    + rewrite lookup_delete_ne by done.
      destruct (decide (x = a)) as [->|Hxa].
      * by rewrite lookup_insert_eq, Hma.
      * by rewrite lookup_insert_ne, lookup_delete_ne, lookup_insert_ne.
Qed.

(** ** Checking the side conditions on a given world *)

Lemma heap_closed_b_sound w : heap_closed_b w = true -> heap_closed w.
Proof.
  unfold heap_closed_b, heap_closed. intros H id l Hm.
  rewrite forallb_forall in H.
  assert (Hin : In (id, l) (map_to_list (metadata w)))
    by apply list_elem_of_In, elem_of_map_to_list, Hm.
  specialize (H _ Hin). cbn in H. by apply bool_decide_eq_true in H.
Qed.

Lemma alloc_fresh_b_sound w : alloc_fresh_b w = true -> alloc_fresh w.
Proof.
  unfold alloc_fresh_b, alloc_fresh. intros H l Hl.
  destruct (heap w !! l) as [d|] eqn:Hh; [|done].
  rewrite forallb_forall in H.
  assert (Hin : In (l, d) (map_to_list (heap w)))
    by apply list_elem_of_In, elem_of_map_to_list, Hh.
  specialize (H _ Hin). cbn in H. by apply bool_decide_eq_true in H.
Qed.





(** ** drive_item.go: RemoteID, Chmod and Utimens *)

(** RemoteID asks the server only for a file with a local id, and only
    when it has a token. *)
Lemma RemoteID_without_upload w l d auth :
  heap w !! l = Some d ->
  IsDir d = true \/ isLocalID (IDInternal d) = false \/
    (exists a, auth = Some a /\ AccessToken a = "") ->
  RemoteID (Some l) auth w = Ret ((IDInternal d, None), w).
Proof.
  intros Hl Hcase. unfold RemoteID, m_bind, load. rewrite Hl.
  destruct (IsDir d); [reflexivity|].
  destruct (isLocalID (IDInternal d)); cbn [negb]; [|reflexivity].
  destruct Hcase as [?|[?|(a & -> & Ha)]]; [done | done |].
  cbn. by rewrite Ha.
Qed.


(** X17: an item taken from a server listing has no back pointer to the
    cache, so Chmod and Utimens on it always panic. *)
Theorem Chmod_of_fetched_item_panics w l j perms atime mtime :
  heap w !! l = Some (Unmarshal j zero_item) ->
  DriveItem_Chmod (Some l) perms w = Panic /\
  DriveItem_Utimens (Some l) atime mtime w = Panic.
Proof.
  intros Hl. split.
  - unfold DriveItem_Chmod, m_bind, load. rewrite Hl.
    unfold m_lift. destruct (Path _); [|reflexivity].
    destruct (IsDir _); unfold update, m_bind, load, store, m_modify;
      rewrite Hl; cbn; by rewrite lookup_insert_eq.
  - unfold DriveItem_Utimens, m_bind, load. rewrite Hl.
    unfold m_lift. destruct (Path _); [|reflexivity].
    unfold update, m_bind, load, store, m_modify.
    rewrite Hl. cbn. by rewrite lookup_insert_eq.
Qed.

(** X18: Chmod keeps the kind of an item.  For an item that has its back
    pointer and its parent reference, and permission bits that do not
    carry the directory bit, Chmod answers OK, makes the mode the kind bit
    together with the permissions, leaves a directory a directory and a
    file a file, and stores the item in the graph under its id. *)
Theorem Chmod_keeps_the_kind w l d perms :
  heap w !! l = Some d -> cache d = true -> Parent d <> None ->
  0 <= perms -> Z.land perms S_IFDIR = 0 ->
  exists w' d',
    DriveItem_Chmod (Some l) perms w = Ret (OK, w') /\
    heap w' !! l = Some d' /\
    mode d' = Z.lor (if IsDir d then S_IFDIR else S_IFREG) perms /\
    IsDir d' = IsDir d /\
    metadata w' !! ID d = Some l /\
    calls w' = calls w.
Proof.
  intros Hl Hcache Hpar Hpos Hperm.
  assert (Hpath : exists p, Path d = Ret p).
  { unfold Path. destruct (Parent d); [|done]. destruct (_ && _); by eexists. }
  destruct Hpath as [p Hp].
  assert (Hkind : forall k, k = S_IFDIR \/ k = S_IFREG ->
            (0 <? Z.land (Z.lor k perms) S_IFDIR) = (k =? S_IFDIR)).
  { intros k Hk. rewrite Z.land_lor_distr_l, Hperm, Z.lor_0_r.
    destruct Hk as [->| ->]; reflexivity. }
  assert (Hnz : forall k, k = S_IFDIR \/ k = S_IFREG -> (Z.lor k perms =? 0) = false).
  { intros k Hk. apply Z.eqb_neq. intros H0. apply Z.lor_eq_0_iff in H0 as [H0 _].
    destruct Hk as [->| ->]; discriminate. }
  destruct (IsDir d) eqn:Hdir.
  - eexists _, _. split_and!.
    + unfold DriveItem_Chmod, m_bind, load. rewrite Hl. unfold m_lift. rewrite Hp, Hdir.
      unfold update, m_bind, load, store, m_modify. rewrite Hl. cbn [heap with_heap].
      rewrite lookup_insert_eq. unfold via_cache. cbn [cache with_mode]. rewrite Hcache.
      reflexivity.
    + cbn. apply lookup_insert_eq.
    + reflexivity.
    + unfold IsDir, Mode. cbn [mode with_mode].
      rewrite Hnz by (by left). rewrite Hkind by (by left). reflexivity.
    + cbn. apply lookup_insert_eq.
    + reflexivity.
  - eexists _, _. split_and!.
    + unfold DriveItem_Chmod, m_bind, load. rewrite Hl. unfold m_lift. rewrite Hp, Hdir.
      unfold update, m_bind, load, store, m_modify. rewrite Hl. cbn [heap with_heap].
      rewrite lookup_insert_eq. unfold via_cache. cbn [cache with_mode]. rewrite Hcache.
      reflexivity.
    + cbn. apply lookup_insert_eq.
    + reflexivity.
    + unfold IsDir, Mode. cbn [mode with_mode].
      rewrite Hnz by (by right). rewrite Hkind by (by right). reflexivity.
    + cbn. apply lookup_insert_eq.
    + reflexivity.
Qed.

(** DeletePath cannot go on when the resolution fails. *)
Lemma DeletePath_of_unresolved_path_panics_aux key w it e w1 :
  GetPath (ToLower key) (Some (MkAuth "")) w = Ret ((it, Some e), w1) ->
  DeletePath key w = Panic.
Proof.
  intros Hget. pose proof (GetPath_item_or_error _ _ _ _ _ _ Hget). subst it.
  unfold DeletePath, m_bind. rewrite Hget. reflexivity.
Qed.

(** ** The handlers, again *)

(** X19: Unlink of an item the graph resolves.  A local-only item is
    removed without any request; for an item with a remote id one DELETE is
    sent first.  Either way the handler answers OK and the graph loses
    exactly the entry of the item; the heap is not written. *)
Theorem Unlink_removes_the_entry fs name w w1 l d l2 d2 body :
  GetPath (FuseFs.leadingSlash name) (FuseFs.fs_Auth fs) w = Ret ((Some l, None), w1) ->
  heap w1 !! l = Some d ->
  (isLocalID (ID d) = false ->
   server w1 (calls w1)
     (MkRequest DELETE (ResourcePath (FuseFs.leadingSlash name)) (FuseFs.fs_Auth fs) NoBody)
   = Success body) ->
  GetPath (ToLower (FuseFs.leadingSlash name)) (Some (MkAuth "")) w1
    = Ret ((Some l2, None), w1) ->
  heap w1 !! l2 = Some d2 ->
  FuseFs.Unlink fs name w =
    Ret (OK,
         with_metadata (delete (ID d2) (metadata w1))
           (if isLocalID (ID d) then w1
            else with_calls
                   (calls w1 ++
                    [MkRequest DELETE (ResourcePath (FuseFs.leadingSlash name))
                       (FuseFs.fs_Auth fs) NoBody]) w1)).
Proof.
  intros Hget Hl Hsrv Hget2 Hl2.
  unfold FuseFs.Unlink, m_bind. rewrite Hget. cbn [load]. unfold load. rewrite Hl.
  destruct (isLocalID (ID d)) eqn:Hlocal; cbn [negb].
  - cbn [m_ret]. rewrite (DeletePath_found _ w1 l2 d2 w1 Hget2 Hl2). reflexivity.
  - unfold Delete, request. rewrite (Hsrv eq_refl). cbn [m_ret].
    set (w2 := with_calls _ w1).
    assert (Hget2' : GetPath (ToLower (FuseFs.leadingSlash name)) (Some (MkAuth "")) w2
                     = Ret ((Some l2, None), w2)).
    { subst w2. rewrite GetPath_calls by reflexivity. by rewrite Hget2. }
    rewrite (DeletePath_found _ w2 l2 d2 w2 Hget2' Hl2). reflexivity.
Qed.

(** X20: when the server refuses the DELETE, Unlink answers EREMOTEIO and
    the item stays: the world is as the resolution left it, but for the
    request in the log. *)
Theorem Unlink_refused_by_server fs name w w1 l d msg :
  GetPath (FuseFs.leadingSlash name) (FuseFs.fs_Auth fs) w = Ret ((Some l, None), w1) ->
  heap w1 !! l = Some d -> isLocalID (ID d) = false ->
  server w1 (calls w1)
    (MkRequest DELETE (ResourcePath (FuseFs.leadingSlash name)) (FuseFs.fs_Auth fs) NoBody)
  = Failure msg ->
  FuseFs.Unlink fs name w =
    Ret (EREMOTEIO,
         with_calls
           (calls w1 ++
            [MkRequest DELETE (ResourcePath (FuseFs.leadingSlash name))
               (FuseFs.fs_Auth fs) NoBody]) w1).
Proof.
  intros Hget Hl Hlocal Hsrv.
  unfold FuseFs.Unlink, m_bind. rewrite Hget. cbn [load]. unfold load. rewrite Hl, Hlocal.
  cbn [negb]. unfold Delete, request. rewrite Hsrv. reflexivity.
Qed.

(** X21: Mkdir and Rmdir ask the server before they look at the graph.
    When the server refuses, both answer EREMOTEIO with the world untouched
    but for the request in the log. *)
Theorem Mkdir_Rmdir_refused_by_server fs name w :
  (forall mode_ msg,
     let req :=
       MkRequest POST (ChildrenPath (Dir (FuseFs.leadingSlash name))) (FuseFs.fs_Auth fs)
         (JsonBody {| j_id := None; j_name := omitempty (Base (FuseFs.leadingSlash name));
                      j_size := None; j_lastModifiedDatetime := None;
                      j_parentReference := None; j_folder := Some (MkFolder 0);
                      j_file := None; j_deleted := None; j_conflictBehavior := None |}) in
     server w (calls w) req = Failure msg ->
     FuseFs.Mkdir fs name mode_ w = Ret (EREMOTEIO, with_calls (calls w ++ [req]) w)) /\
  (forall msg,
     let req :=
       MkRequest DELETE (ResourcePath (FuseFs.leadingSlash name)) (FuseFs.fs_Auth fs) NoBody in
     server w (calls w) req = Failure msg ->
     FuseFs.Rmdir fs name w = Ret (EREMOTEIO, with_calls (calls w ++ [req]) w)).
Proof.
  split.
  - intros mode_ msg req Hsrv.
    unfold FuseFs.Mkdir, m_bind, Post, request. fold req. rewrite Hsrv. reflexivity.
  - intros msg req Hsrv.
    unfold FuseFs.Rmdir, m_bind, Delete, request. fold req. rewrite Hsrv. reflexivity.
Qed.

(** X22: Rmdir of a path the graph does not resolve panics once the server
    has accepted the DELETE: the local removal dereferences the nil item. *)
Theorem Rmdir_of_unresolved_path_panics fs name w body it e w1 :
  server w (calls w)
    (MkRequest DELETE (ResourcePath (FuseFs.leadingSlash name)) (FuseFs.fs_Auth fs) NoBody)
  = Success body ->
  GetPath (ToLower (FuseFs.leadingSlash name)) (Some (MkAuth "")) w = Ret ((it, Some e), w1) ->
  FuseFs.Rmdir fs name w = Panic.
Proof.
  intros Hsrv Hget.
  unfold FuseFs.Rmdir, m_bind, Delete, request. rewrite Hsrv.
  set (w2 := with_calls _ w).
  assert (Hget2 : GetPath (ToLower (FuseFs.leadingSlash name)) (Some (MkAuth "")) w2
                  = Ret ((it, Some e), with_calls (calls w2) w1)).
  { subst w2. rewrite GetPath_calls by reflexivity. by rewrite Hget. }
  by rewrite (DeletePath_of_unresolved_path_panics_aux _ _ _ _ _ Hget2).
Qed.

(** X23: Rename of a file that has only a local id, by a filesystem whose
    token is empty, answers EBADF: no request is made and the item keeps
    its name. *)
Theorem Rename_of_local_file_without_token fs oldName newName a w w1 l d e :
  FuseFs.fs_Auth fs = Some a -> AccessToken a = "" ->
  GetPath (FuseFs.leadingSlash oldName) (Some a) w = Ret ((Some l, e), w1) ->
  heap w1 !! l = Some d -> isLocalID (IDInternal d) = true ->
  FuseFs.Rename fs oldName newName w = Ret (EBADF, w) /\ w1 = w.
Proof.
  intros Hauth Htok Hget Hl Hlocal.
  assert (w1 = w).
  { apply (GetPath_no_token (Some a) (FuseFs.leadingSlash oldName) w (Some l, e) w1); [|done].
    cbn. by rewrite Htok. }
  subst w1. split; [|done].
  unfold FuseFs.Rename, m_bind. rewrite Hauth, Hget.
  rewrite (RemoteID_without_upload w l d (Some a) Hl).
  - by rewrite Hlocal.
  - right. right. by exists a.
Qed.

(** X24: what GetAttr reports for an item the graph resolves: a directory
    has size 4096 and 2 links plus its subdirectory count, a file its size
    and 1 link; the three times are the modification time.  An item
    without a modification time makes GetAttr panic. *)
Theorem GetAttr_reports fs name w w1 l d :
  FuseFs.ignore (FuseFs.leadingSlash name) = false ->
  GetPath (FuseFs.leadingSlash name) (FuseFs.fs_Auth fs) w = Ret ((Some l, None), w1) ->
  heap w1 !! l = Some d ->
  match ModTimeInternal d with
  | Some t =>
      FuseFs.GetAttr fs name w =
        Ret ((Some {| a_Size := if IsDir d then 4096 else SizeInternal d;
                      a_Nlink := if IsDir d then to_uint32 (2 + subdir d) else 1;
                      a_Atime := to_uint64 t; a_Mtime := to_uint64 t;
                      a_Ctime := to_uint64 t; a_Mode := Mode d;
                      a_Owner := FuseFs.fs_owner fs |}, OK), w1)
  | None => FuseFs.GetAttr fs name w = Panic
  end.
Proof.
  intros Hign Hget Hl.
  unfold FuseFs.GetAttr, m_bind. rewrite Hign, Hget.
  unfold load. rewrite Hl. unfold m_lift, DriveItem_GetAttr, ModTime, Size, NLink.
  destruct (ModTimeInternal d); reflexivity.
Qed.

(** X25: OpenDir of a path that resolves to a regular file answers OK with
    an empty listing, and makes no request of its own. *)
Theorem OpenDir_of_a_file_is_empty fs name w w1 l d :
  GetPath (FuseFs.leadingSlash name) (FuseFs.fs_Auth fs) w = Ret ((Some l, None), w1) ->
  heap w1 !! l = Some d -> metadata w1 !! ID d = Some l -> IsDir d = false ->
  FuseFs.OpenDir fs name w = Ret ((Some [], OK), w1).
Proof.
  intros Hget Hl Hm Hdir.
  unfold FuseFs.OpenDir, GetChildrenPath, m_bind. rewrite Hget.
  unfold load. rewrite Hl.
  unfold GetChildrenID, m_bind, GetID. rewrite Hm.
  unfold load. rewrite Hl, Hdir. cbn.
  by rewrite map_to_list_empty.
Qed.

Lemma isLocalID_local s : isLocalID ("local-" +:+ s) = true.
Proof. unfold isLocalID, HasPrefix. cbn. by destruct s. Qed.

(** X26: Create in the root directory.  The new item gets a fresh local
    id, the name and mode asked for, size 0 and an empty children list; it
    is stored in the graph under its id and listed last among the children
    of the root.  No request is made and the handler answers OK. *)
Theorem Create_in_the_root fs name flags mode_ w lp pd :
  Dir (FuseFs.leadingSlash name) = "/" ->
  Dir (ToLower (FuseFs.leadingSlash name)) = "/" ->
  metadata w !! root w = Some lp -> heap w !! lp = Some pd -> Parent pd <> None ->
  alloc_fresh w ->
  exists w' item rootdir,
    FuseFs.Create fs name flags mode_ w = Ret ((Some (next_loc w), OK), w') /\
    calls w' = calls w /\
    heap w' !! next_loc w = Some item /\
    IDInternal item = "local-" +:+ rand_strings w (rand_used w) /\
    isLocalID (IDInternal item) = true /\
    NameInternal item = Base (FuseFs.leadingSlash name) /\
    SizeInternal item = 0 /\ mode item = mode_ /\ children item = Some [] /\
    option_map ID_ (Parent item) = Some (IDInternal pd) /\
    metadata w' !! IDInternal item = Some (next_loc w) /\
    heap w' !! lp = Some rootdir /\
    children rootdir = append_id (children pd) (IDInternal item).
Proof.
  intros Hdir Hdir' Hroot Hlp Hpar Hfresh.
  assert (Hne : next_loc w <> lp).
  { assert (lp < next_loc w)%positive by (apply Hfresh; congruence). lia. }
  assert (Hpath : exists p, Path pd = Ret p).
  { unfold Path. destruct (Parent pd); [|done]. destruct (_ && _); by eexists. }
  destruct Hpath as [ppath Hp].
  set (item0 :=
         {| cache := cache pd; content := None; uploadSession := false;
            hasChanges := false;
            IDInternal := "local-" +:+ rand_strings w (rand_used w);
            NameInternal := Base (FuseFs.leadingSlash name); SizeInternal := 0;
            ModTimeInternal := Some (now w); mode := mode_;
            Parent := Some (MkParent ppath (IDInternal pd)); children := Some [];
            subdir := 0; Folder_ := None; FileInternal := None; Deleted_ := None;
            ConflictBehavior := "" |}).
  set (w2 := with_heap (<[next_loc w := item0]> (heap w)) (Pos.succ (next_loc w))
               (with_rand_used (S (rand_used w)) w)).
  assert (Hnew : heap w2 !! next_loc w = Some item0) by (subst w2; cbn; apply lookup_insert_eq).
  assert (Hlp2 : heap w2 !! lp = Some pd).
  { subst w2. cbn. by rewrite lookup_insert_ne. }
  assert (Hstep : FuseFs.Create fs name flags mode_ w =
                  (InsertPath (FuseFs.leadingSlash name) (FuseFs.fs_Auth fs)
                     (Some (next_loc w)) ;; m_ret (Some (next_loc w), OK)) w2).
  { unfold FuseFs.Create, m_bind at 1. rewrite Hdir.
    unfold GetPath at 1. cbn [String.eqb Ascii.eqb Bool.eqb]. unfold m_bind at 1, m_get.
    unfold m_bind at 1. unfold GetID. rewrite Hroot. cbn [m_ret].
    unfold m_bind at 1. unfold NewDriveItem.
    unfold m_bind at 1. unfold m_bind at 1. unfold load. rewrite Hlp.
    unfold m_bind at 1. unfold m_lift. rewrite Hp. cbn [m_ret].
    unfold m_bind at 1. unfold m_bind at 1. unfold localID, alloc.
    cbn [fst snd rand_strings rand_used with_rand_used next_loc heap now].
    reflexivity. }
  assert (Hins : InsertPath (FuseFs.leadingSlash name) (FuseFs.fs_Auth fs)
                   (Some (next_loc w)) w2
                 = Ret (None,
                        with_metadata (<[IDInternal item0 := next_loc w]> (metadata w2))
                          (with_heap
                             (<[next_loc w :=
                                  with_parent (Some (MkParent ppath (IDInternal pd))) item0]>
                                (<[lp := with_children (append_id (children pd) (IDInternal item0))
                                           (if IsDir item0
                                            then with_subdir (to_uint32 (subdir pd + 1)) pd
                                            else pd)]>
                                   (heap w2)))
                             (next_loc w2) w2))).
  { unfold InsertPath, m_bind at 1. rewrite Hdir'.
    unfold GetPath at 1. cbn [String.eqb Ascii.eqb Bool.eqb]. unfold m_bind at 1, m_get.
    unfold m_bind at 1. unfold GetID.
    replace (metadata w2 !! root w2) with (Some lp) by (subst w2; cbn; by rewrite Hroot).
    cbn [m_ret]. unfold m_bind at 1.
    rewrite (setParent_runs w2 (next_loc w) lp item0 pd (MkParent ppath (IDInternal pd)))
      by done.
    unfold m_bind at 1. unfold load. cbn [heap with_heap]. rewrite lookup_insert_eq.
    reflexivity. }
  rewrite Hstep. unfold m_bind at 1. rewrite Hins.
  eexists _, (with_parent (Some (MkParent ppath (IDInternal pd))) item0),
    (with_children (append_id (children pd) (IDInternal item0))
       (if IsDir item0 then with_subdir (to_uint32 (subdir pd + 1)) pd else pd)).
  split; [reflexivity|]. cbn.
  split_and!; try reflexivity.
  - apply lookup_insert_eq.
  - apply isLocalID_local.
  - apply lookup_insert_eq.
  - rewrite lookup_insert_ne by done. apply lookup_insert_eq.
Qed.

(** ** The delta feed, again *)

Lemma substring_all s : String.substring 0 (String.length s) s = s.
Proof. induction s as [|c s IH]; [reflexivity|]. simpl. by rewrite IH. Qed.

Lemma TrimPrefix_append p s : TrimPrefix (p +:+ s) p = s.
Proof.
  unfold TrimPrefix.
  assert (H : String.prefix p (p +:+ s) = true /\
              String.substring (String.length p)
                (String.length (p +:+ s) - String.length p) (p +:+ s) = s).
  { induction p as [|c p [IH1 IH2]].
    - split; [by destruct s|]. cbn [String.append String.length].
      rewrite Nat.sub_0_r. apply substring_all.
    - change (String c p +:+ s) with (String c (p +:+ s)). split.
      + simpl. destruct (ascii_dec c c); [exact IH1 | done].
      + simpl. exact IH2. }
  destruct H as [-> ->]. reflexivity.
Qed.

(** X27: one poll of the delta feed.  pollDeltas sends one GET to the link
    it holds.  On a page with a next link it keeps that link, without the
    prefix of the API, and asks to be called again; on a page without one
    it keeps the delta link, without the prefix, and asks for no further
    call.  On a failure it keeps its link and returns the error. *)
Theorem pollDeltas_follows_the_links url auth w :
  (forall next delta items,
     server w (calls w) (MkRequest GET (deltaLink w) auth NoBody)
       = Success (BodyDelta (url +:+ next) delta items) ->
     url +:+ next <> "" ->
     pollDeltas url auth w =
       Ret ((true, None),
            with_deltaLink next
              (with_calls (calls w ++ [MkRequest GET (deltaLink w) auth NoBody]) w))) /\
  (forall delta items,
     server w (calls w) (MkRequest GET (deltaLink w) auth NoBody)
       = Success (BodyDelta "" (url +:+ delta) items) ->
     pollDeltas url auth w =
       Ret ((false, None),
            with_deltaLink delta
              (with_calls (calls w ++ [MkRequest GET (deltaLink w) auth NoBody]) w))) /\
  (forall msg,
     server w (calls w) (MkRequest GET (deltaLink w) auth NoBody) = Failure msg ->
     pollDeltas url auth w =
       Ret ((false, Some msg),
            with_calls (calls w ++ [MkRequest GET (deltaLink w) auth NoBody]) w)).
Proof.
  split_and!.
  - intros next delta items Hsrv Hne.
    unfold pollDeltas, m_bind, m_get, Get, request. rewrite Hsrv.
    rewrite applyDeltas_nop. cbn [delta_of_body NextLink DeltaLink].
    apply String.eqb_neq in Hne. rewrite Hne. cbn [negb].
    unfold m_modify, m_ret. by rewrite TrimPrefix_append.
  - intros delta items Hsrv.
    unfold pollDeltas, m_bind, m_get, Get, request. rewrite Hsrv.
    rewrite applyDeltas_nop. cbn [delta_of_body NextLink DeltaLink].
    change (String.eqb "" "") with true. cbn [negb].
    unfold m_modify, m_ret. by rewrite TrimPrefix_append.
  - intros msg Hsrv.
    unfold pollDeltas, m_bind, m_get, Get, request. rewrite Hsrv. reflexivity.
Qed.

(** ** The content tiers *)

Section ContentTierFacts.

Variable raw : Body -> slice.

(** X28: flushing and loading again.  A buffer that is live under a key
    the bucket accepts is written to disk and leaves memory; the next
    GetContentID finds it on disk, makes it live again, and returns the
    same bytes, unchanged and not marked dirty, without any request. *)
Theorem Flush_then_Get_returns_the_bytes key c auth w :
  content_ w !! key = Some c ->
  bucket_accepts key (elems (Content.data c)) = true ->
  exists w1 w2 c2,
    FlushContentID raw key w = Ret (tt, w1) /\
    content_ w1 !! key = None /\
    content_db w1 !! key = Some (elems (Content.data c)) /\
    GetContentID raw key auth w1 = Ret ((Some c2, None), w2) /\
    elems (Content.data c2) = elems (Content.data c) /\
    Content.size c2 = slice_len (Content.data c) /\
    Content.hasChanges c2 = false /\
    content_ w2 !! key = Some c2 /\
    calls w2 = calls w /\ heap w2 = heap w /\ metadata w2 = metadata w.
Proof.
  intros Hlive Hacc.
  assert (Hlen : 0 <= len (elems (Content.data c)) < 2 ^ 64).
  { pose proof (len_nonneg (elems (Content.data c))).
    unfold bucket_accepts in Hacc. apply andb_prop in Hacc as [_ Hv].
    apply Z.leb_le in Hv. unfold MaxValueSize in Hv. lia. }
  eexists _, _, _. split.
  { unfold FlushContentID, m_bind, GetContentID, m_bind, m_get. rewrite Hlive.
    reflexivity. }
  cbn [content_ content_db with_content].
  unfold bucket_put. rewrite Hacc.
  split_and!.
  - apply lookup_delete_eq.
  - apply lookup_insert_eq.
  - unfold GetContentID, m_bind, m_get. cbn [content_ content_db with_content].
    rewrite lookup_delete_eq, lookup_insert_eq. reflexivity.
  - reflexivity.
  - cbn. unfold slice_len. by apply to_uint64_small.
  - reflexivity.
  - cbn. apply lookup_insert_eq.
  - reflexivity.
  - reflexivity.
  - reflexivity.
Qed.

(** X29: eviction.  After DeleteContentID a content is in neither tier,
    and GetContentID for a key the graph does not know fails with the
    missing-metadata error, without any request and without changing
    anything. *)
Theorem DeleteContentID_evicts key auth w :
  exists w1,
    DeleteContentID key w = Ret (tt, w1) /\
    content_ w1 !! key = None /\ content_db w1 !! key = None /\
    (forall k, k <> key -> content_ w1 !! k = content_ w !! k /\
                           content_db w1 !! k = content_db w !! k) /\
    (metadata w !! key = None ->
     GetContentID raw key auth w1 = Ret ((None, Some metadata_missing), w1)).
Proof.
  eexists. split; [reflexivity|]. cbn.
  split_and!.
  - apply lookup_delete_eq.
  - apply lookup_delete_eq.
  - intros k Hk. by rewrite !lookup_delete_ne.
  - intros Hm. unfold GetContentID, m_bind, m_get. cbn.
    rewrite !lookup_delete_eq. unfold GetID. cbn. by rewrite Hm.
Qed.

(** GetContentID looks in memory first and on disk second, and asks
    the server only when both miss: a live content is returned as it is,
    and a content on disk is copied into a clean buffer and made live; in
    both cases no request is made and the graph is not touched. *)
Theorem GetContentID_prefers_local_tiers key auth w :
  (forall c, content_ w !! key = Some c ->
     GetContentID raw key auth w = Ret ((Some c, None), w)) /\
  (forall bytes, content_ w !! key = None -> content_db w !! key = Some bytes ->
     exists w',
       GetContentID raw key auth w
       = Ret ((Some (Content.NewDriveItemContent (MkSlice bytes [])), None), w') /\
       content_ w' !! key = Some (Content.NewDriveItemContent (MkSlice bytes [])) /\
       content_db w' = content_db w /\ calls w' = calls w /\
       heap w' = heap w /\ metadata w' = metadata w).
Proof.
  split.
  - intros c Hlive. unfold GetContentID, m_bind, m_get. by rewrite Hlive.
  - intros bytes Hlive Hdisk. eexists. split.
    + unfold GetContentID, m_bind, m_get. rewrite Hlive, Hdisk. reflexivity.
    + cbn. split_and!; try reflexivity. apply lookup_insert_eq.
Qed.

End ContentTierFacts.

(** ** StatFs *)

(** X30: StatFs sends one GET and never fails.  When the request fails it
    reports a filesystem of zero blocks.  When it succeeds the blocks are
    the quota in units of 4096 bytes, rounded down, and the count of free
    files is 100000 less the file count of the drive, wrapping around as a
    uint64 when the drive holds more files than that. *)
Theorem StatFs_reports decode fs name w :
  exists out,
    StatFs decode fs name w
    = Ret (out, with_calls (calls w ++ [MkRequest GET "/me/drive" (FuseFs.fs_Auth fs) NoBody]) w) /\
    Bsize out = 4096 /\ NameLen out = 260 /\ Files out = 100000 /\ Bavail out = Bfree out /\
    (forall msg,
       server w (calls w) (MkRequest GET "/me/drive" (FuseFs.fs_Auth fs) NoBody) = Failure msg ->
       Blocks out = 0 /\ Bfree out = 0 /\ Ffree out = 100000) /\
    (forall body,
       server w (calls w) (MkRequest GET "/me/drive" (FuseFs.fs_Auth fs) NoBody) = Success body ->
       let q := drv_Quota (decode body) in
       0 <= q_Total q -> 0 <= q_FileCount q < 2 ^ 64 ->
       Blocks out * 4096 <= q_Total q < Blocks out * 4096 + 4096 /\
       (q_FileCount q <= 100000 -> Ffree out = 100000 - q_FileCount q) /\
       (100000 < q_FileCount q -> Ffree out = 2 ^ 64 - (q_FileCount q - 100000))).
Proof.
  unfold StatFs, m_bind, Get, request, m_ret.
  eexists. split; [reflexivity|]. cbn.
  split_and!; try reflexivity.
  - intros msg ->. cbn. split_and!; reflexivity.
  - intros body ->. cbn. intros Htot Hfc. split_and!.
    + pose proof (Z.mul_div_le (q_Total (drv_Quota (decode body))) 4096). lia.
    + pose proof (Z.mul_succ_div_gt (q_Total (drv_Quota (decode body))) 4096). lia.
    + intros Hle. apply to_uint64_small. lia.
    + intros Hgt. unfold to_uint64.
      rewrite <- (Z_mod_plus_full _ 1). rewrite Z.mod_small; lia.
Qed.

(** ** The properties above on given inputs *)

Lemma Write_keeps_the_rest_witness :
  exists n c',
    Content.Write (fun _ needed => needed) abc_content ["x"]%byte 1 = Ret (n, OK, c') /\
    Content.hasChanges c' = true /\
    Content.size c' = Z.max (Content.size abc_content) (1 + len ["x"]%byte) /\
    Content.size c' = slice_len (Content.data c') /\
    take (Z.to_nat 1) (elems (Content.data c'))
      = take (Z.to_nat 1) (elems (Content.data abc_content)) /\
    drop (Z.to_nat 1 + length ["x"]%byte) (elems (Content.data c'))
      = drop (Z.to_nat 1 + length ["x"]%byte) (elems (Content.data abc_content)).
Proof.
  apply (Write_keeps_the_rest (fun _ needed => needed) abc_content ["x"]%byte 1).
  - apply NewDriveItemContent_wf. vm_compute. discriminate.
  - vm_compute. split; discriminate.
  - vm_compute. discriminate.
Defined.

Lemma Write_beyond_capacity_panics_witness :
  Content.Write (fun _ needed => needed) abc_content ["x"]%byte 5 = Panic.
Proof.
  apply (Write_beyond_capacity_panics (fun _ needed => needed) abc_content ["x"]%byte 5).
  - apply NewDriveItemContent_wf. vm_compute. discriminate.
  - vm_compute. reflexivity.
  - vm_compute. reflexivity.
  - vm_compute. discriminate.
Defined.

Lemma Truncate_shortens_witness :
  exists c',
    Content.Truncate abc_content 2 = Ret (OK, c') /\
    Content.size c' = 2 /\ Content.hasChanges c' = true /\
    elems (Content.data c') = take (Z.to_nat 2) (elems (Content.data abc_content)) /\
    Content.Read c' ["0"; "0"; "0"]%byte 0
      = Ret (take (Z.to_nat 2) (elems (Content.data abc_content)), OK).
Proof.
  apply (Truncate_shortens abc_content 2 ["0"; "0"; "0"]%byte).
  - vm_compute. split; discriminate.
  - vm_compute. discriminate.
  - vm_compute. split; discriminate.
Defined.

Lemma Read_short_at_end_witness :
  exists out,
    Content.Read abc_content ["0"; "0"; "0"; "0"]%byte 2 = Ret (out, OK) /\
    out = take (length ["0"; "0"; "0"; "0"]%byte)
            (drop (Z.to_nat 2) (elems (Content.data abc_content))) /\
    len out = Z.min (len ["0"; "0"; "0"; "0"]%byte)
                    (slice_len (Content.data abc_content) - 2).
Proof.
  apply (Read_short_at_end abc_content ["0"; "0"; "0"; "0"]%byte 2).
  - vm_compute. split; discriminate.
  - vm_compute. discriminate.
  - vm_compute. discriminate.
Defined.

Lemma Read_beyond_end_panics_witness :
  Content.Read abc_content ["0"]%byte 4 = Panic.
Proof.
  apply (Read_beyond_end_panics abc_content ["0"]%byte 4); vm_compute; reflexivity.
Defined.

Lemma Truncate_down_then_up_witness :
  exists c1 c2,
    Content.Truncate abc_content 1 = Ret (OK, c1) /\
    Content.Truncate c1 3 = Ret (OK, c2) /\
    Content.size c2 = 3 /\
    elems (Content.data c2) = take (Z.to_nat 3) (elems (Content.data abc_content)).
Proof.
  apply (Truncate_down_then_up abc_content 1 3).
  - vm_compute. split; discriminate.
  - vm_compute. discriminate.
Defined.

Lemma GetChildrenID_of_enumerated_directory_witness :
  exists m,
    GetChildrenID "ROOT" None (world_of two_dirs_items offline)
    = Ret ((Some m, None), world_of two_dirs_items offline) /\
    is_Some (m !! "a") /\ is_Some (m !! "b").
Proof.
  destruct (GetChildrenID_of_enumerated_directory (world_of two_dirs_items offline)
              "ROOT" None 1%positive (root_item (Some ["A"; "B"]) 2) ["A"; "B"])
    as (m & Hrun & _ & Hall).
  - apply heap_closed_b_sound. vm_compute. reflexivity.
  - vm_compute. reflexivity.
  - vm_compute. reflexivity.
  - vm_compute. reflexivity.
  - reflexivity.
  - exists m. split; [exact Hrun|]. split.
    + apply (Hall "A" 2%positive (folder_item "A" "a" "/drive/root:" "ROOT" (Some ["F1"]) 0));
        [by left | vm_compute; reflexivity | vm_compute; reflexivity].
    + apply (Hall "B" 3%positive (folder_item "B" "b" "/drive/root:" "ROOT" (Some []) 0));
        [right; by left | vm_compute; reflexivity | vm_compute; reflexivity].
Defined.

Lemma GetPath_without_token_changes_nothing_witness :
  GetPath "/docs" (Some (MkAuth "")) (world_of [root_item None 0] listing_server)
  = Ret ((None,
          Some ("Auth was nil/zero and children of " +:+ dquote +:+ "/" +:+ dquote +:+
                " were not in cache. Could not fetch item as a result.")),
         world_of [root_item None 0] listing_server) /\
  world_of [root_item None 0] listing_server = world_of [root_item None 0] listing_server.
Proof.
  assert (Hrun :
    GetPath "/docs" (Some (MkAuth "")) (world_of [root_item None 0] listing_server)
    = Ret ((None,
            Some ("Auth was nil/zero and children of " +:+ dquote +:+ "/" +:+ dquote +:+
                  " were not in cache. Could not fetch item as a result.")),
           world_of [root_item None 0] listing_server)).
  { vm_compute. reflexivity. }
  split; [exact Hrun|].
  exact (proj1 (GetPath_without_token_changes_nothing (Some (MkAuth "")) "/docs"
                  _ _ _ _ eq_refl Hrun)).
Defined.

Lemma DeletePath_only_drops_the_entry_witness :
  exists l d,
    GetPath (ToLower "/x") (Some (MkAuth "")) (world_of one_file_items offline)
    = Ret ((Some l, None), world_of one_file_items offline) /\
    heap (world_of one_file_items offline) !! l = Some d /\
    with_metadata (delete "F1" (metadata (world_of one_file_items offline)))
      (world_of one_file_items offline)
    = with_metadata (delete (ID d) (metadata (world_of one_file_items offline)))
        (world_of one_file_items offline).
Proof.
  apply (DeletePath_only_drops_the_entry "/x" (world_of one_file_items offline)).
  vm_compute. reflexivity.
Defined.

Lemma DeletePath_of_unresolved_path_panics_witness :
  DeletePath "/nope" (world_of empty_drive_items offline) = Panic.
Proof.
  apply (DeletePath_of_unresolved_path_panics "/nope" (world_of empty_drive_items offline)
           None ("nope" +:+ not_exist_suffix) (world_of empty_drive_items offline)).
  vm_compute. reflexivity.
Defined.

Lemma GetChildrenID_enumerates_witness :
  exists m w' d',
    GetChildrenID "ROOT" (Some (MkAuth "token")) (world_of [root_item None 0] listing_server)
    = Ret ((Some m, None), w') /\
    heap w' !! 1%positive = Some d' /\
    children d' = Some ["D1"; "N1"] /\ subdir d' = 1.
Proof.
  destruct (GetChildrenID_enumerates (world_of [root_item None 0] listing_server)
              "ROOT" (Some (MkAuth "token")) 1%positive (root_item None 0)
              (BodyChildren [docs_json; notes_json]))
    as (m & w' & d' & Hrun & _ & Hl & Hkids & Hsub & _).
  - vm_compute. reflexivity.
  - vm_compute. reflexivity.
  - vm_compute. reflexivity.
  - reflexivity.
  - vm_compute. split; [discriminate | reflexivity].
  - reflexivity.
  - apply alloc_fresh_b_sound. vm_compute. reflexivity.
  - reflexivity.
  - exists m, w', d'. split_and!; [exact Hrun | exact Hl | exact Hkids | exact Hsub].
Defined.

Lemma MoveID_there_and_back_witness :
  exists w1,
    MoveID "F1" "R9" (world_of one_file_items offline) = Ret (None, w1) /\
    MoveID "R9" "F1" w1 = Ret (None, world_of one_file_items offline).
Proof.
  apply (MoveID_there_and_back (world_of one_file_items offline) "F1" "R9" 2%positive
           (file_item "F1" "x" "/drive/root:" "ROOT") (MkParent "/drive/root:" "ROOT")
           1%positive (root_item (Some ["F1"]) 0)).
  - vm_compute. reflexivity.
  - vm_compute. reflexivity.
  - reflexivity.
  - reflexivity.
  - vm_compute. reflexivity.
  - vm_compute. reflexivity.
  - discriminate.
  - vm_compute. reflexivity.
  - intros ids Hids. injection Hids as <-. intros [H|[]]. discriminate H.
Defined.


Lemma Chmod_of_fetched_item_panics_witness :
  DriveItem_Chmod (Some 2%positive) 420
    (world_of [root_item (Some ["N1"]) 0; Unmarshal notes_json zero_item] offline) = Panic /\
  DriveItem_Utimens (Some 2%positive) None (Some 1600000000)
    (world_of [root_item (Some ["N1"]) 0; Unmarshal notes_json zero_item] offline) = Panic.
Proof.
  apply (Chmod_of_fetched_item_panics
           (world_of [root_item (Some ["N1"]) 0; Unmarshal notes_json zero_item] offline)
           2%positive notes_json).
  vm_compute. reflexivity.
Defined.

Lemma Chmod_keeps_the_kind_witness :
  exists w' d',
    DriveItem_Chmod (Some 2%positive) 384 (world_of local_file_items offline) = Ret (OK, w') /\
    heap w' !! 2%positive = Some d' /\
    mode d' = Z.lor (if IsDir local_file_item then S_IFDIR else S_IFREG) 384 /\
    IsDir d' = IsDir local_file_item /\
    metadata w' !! ID local_file_item = Some 2%positive /\
    calls w' = calls (world_of local_file_items offline).
Proof.
  apply (Chmod_keeps_the_kind (world_of local_file_items offline) 2%positive
           local_file_item 384).
  - vm_compute. reflexivity.
  - reflexivity.
  - discriminate.
  - discriminate.
  - reflexivity.
Defined.

Lemma Unlink_removes_the_entry_witness :
  FuseFs.Unlink fs0 "x" (world_of one_file_items accepting) =
    Ret (OK,
         with_metadata (delete "F1" (metadata (world_of one_file_items accepting)))
           (with_calls
              [MkRequest DELETE (ResourcePath "/x") (Some (MkAuth "token")) NoBody]
              (world_of one_file_items accepting))).
Proof.
  apply (Unlink_removes_the_entry fs0 "x" (world_of one_file_items accepting)
           (world_of one_file_items accepting) 2%positive
           (file_item "F1" "x" "/drive/root:" "ROOT") 2%positive
           (file_item "F1" "x" "/drive/root:" "ROOT") (BodyItem empty_json)).
  - vm_compute. reflexivity.
  - vm_compute. reflexivity.
  - intros _. reflexivity.
  - vm_compute. reflexivity.
  - vm_compute. reflexivity.
Defined.

Lemma Unlink_refused_by_server_witness :
  FuseFs.Unlink fs0 "x" (world_of one_file_items offline) =
    Ret (EREMOTEIO,
         with_calls [MkRequest DELETE (ResourcePath "/x") (Some (MkAuth "token")) NoBody]
           (world_of one_file_items offline)).
Proof.
  apply (Unlink_refused_by_server fs0 "x" (world_of one_file_items offline)
           (world_of one_file_items offline) 2%positive
           (file_item "F1" "x" "/drive/root:" "ROOT") "connection refused").
  - vm_compute. reflexivity.
  - vm_compute. reflexivity.
  - vm_compute. reflexivity.
  - reflexivity.
Defined.

Lemma Mkdir_Rmdir_refused_by_server_witness :
  FuseFs.Rmdir fs0 "d" (world_of one_dir_items offline) =
    Ret (EREMOTEIO,
         with_calls [MkRequest DELETE (ResourcePath "/d") (Some (MkAuth "token")) NoBody]
           (world_of one_dir_items offline)).
Proof.
  apply (proj2 (Mkdir_Rmdir_refused_by_server fs0 "d" (world_of one_dir_items offline))
           "connection refused").
  reflexivity.
Defined.

Lemma Rmdir_of_unresolved_path_panics_witness :
  FuseFs.Rmdir fs0 "nope" (world_of empty_drive_items accepting) = Panic.
Proof.
  apply (Rmdir_of_unresolved_path_panics fs0 "nope" (world_of empty_drive_items accepting)
           (BodyItem empty_json) None ("nope" +:+ not_exist_suffix)
           (world_of empty_drive_items accepting)).
  - reflexivity.
  - vm_compute. reflexivity.
Defined.

Lemma Rename_of_local_file_without_token_witness :
  FuseFs.Rename fs_no_token "f" "g" (world_of local_file_items offline)
  = Ret (EBADF, world_of local_file_items offline).
Proof.
  apply (Rename_of_local_file_without_token fs_no_token "f" "g" (MkAuth "")
           (world_of local_file_items offline) (world_of local_file_items offline)
           2%positive local_file_item None).
  - reflexivity.
  - reflexivity.
  - vm_compute. reflexivity.
  - vm_compute. reflexivity.
  - vm_compute. reflexivity.
Defined.

Lemma GetAttr_reports_witness :
  FuseFs.GetAttr fs0 "a" (world_of two_dirs_items offline) =
    Ret ((Some {| a_Size := 4096; a_Nlink := 2; a_Atime := 1500000000;
                  a_Mtime := 1500000000; a_Ctime := 1500000000; a_Mode := 16877;
                  a_Owner := MkOwner 1000 1000 |}, OK),
         world_of two_dirs_items offline).
Proof.
  apply (GetAttr_reports fs0 "a" (world_of two_dirs_items offline)
           (world_of two_dirs_items offline) 2%positive
           (folder_item "A" "a" "/drive/root:" "ROOT" (Some ["F1"]) 0)).
  - vm_compute. reflexivity.
  - vm_compute. reflexivity.
  - vm_compute. reflexivity.
Defined.

Lemma OpenDir_of_a_file_is_empty_witness :
  FuseFs.OpenDir fs0 "x" (world_of one_file_items offline)
  = Ret ((Some [], OK), world_of one_file_items offline).
Proof.
  apply (OpenDir_of_a_file_is_empty fs0 "x" (world_of one_file_items offline)
           (world_of one_file_items offline) 2%positive
           (file_item "F1" "x" "/drive/root:" "ROOT")).
  - vm_compute. reflexivity.
  - vm_compute. reflexivity.
  - vm_compute. reflexivity.
  - vm_compute. reflexivity.
Defined.

Lemma Create_in_the_root_witness :
  exists w' item rootdir,
    FuseFs.Create fs0 "hello.txt" 0 420 (world_of empty_drive_items offline)
    = Ret ((Some 2%positive, OK), w') /\
    calls w' = [] /\
    heap w' !! 2%positive = Some item /\
    IDInternal item = "local-aaaaaaaaaaaaaaaaaaaa" /\
    SizeInternal item = 0 /\
    heap w' !! 1%positive = Some rootdir /\
    children rootdir = Some ["local-aaaaaaaaaaaaaaaaaaaa"].
Proof.
  destruct (Create_in_the_root fs0 "hello.txt" 0 420 (world_of empty_drive_items offline)
              1%positive (root_item (Some []) 0))
    as (w' & item & rootdir & Hrun & Hcalls & Hitem & Hid & _ & _ & Hsize & _ & _ & _
        & _ & Hroot & Hkids).
  - vm_compute. reflexivity.
  - vm_compute. reflexivity.
  - vm_compute. reflexivity.
  - vm_compute. reflexivity.
  - discriminate.
  - apply alloc_fresh_b_sound. vm_compute. reflexivity.
  - exists w', item, rootdir.
    split_and!; [exact Hrun | exact Hcalls | exact Hitem | exact Hid
                 | exact Hsize | exact Hroot |].
    rewrite Hkids, Hid. vm_compute. reflexivity.
Defined.

Lemma pollDeltas_follows_the_links_witness :
  pollDeltas graphURL (Some (MkAuth "token")) (world_of a_b_items delta_server) =
    Ret ((false, None),
         with_deltaLink "/me/drive/root/delta?token=2"
           (with_calls [MkRequest GET "/me/drive/root/delta?token=latest"
                          (Some (MkAuth "token")) NoBody]
              (world_of a_b_items delta_server))) /\
  pollDeltas graphURL (Some (MkAuth "token")) (world_of a_b_items next_page_server) =
    Ret ((true, None),
         with_deltaLink "/me/drive/root/delta?token=1"
           (with_calls [MkRequest GET "/me/drive/root/delta?token=latest"
                          (Some (MkAuth "token")) NoBody]
              (world_of a_b_items next_page_server))).
Proof.
  split.
  - apply (proj1 (proj2 (pollDeltas_follows_the_links graphURL (Some (MkAuth "token"))
                           (world_of a_b_items delta_server)))
             "/me/drive/root/delta?token=2" [b_deleted]).
    vm_compute. reflexivity.
  - apply (proj1 (pollDeltas_follows_the_links graphURL (Some (MkAuth "token"))
                    (world_of a_b_items next_page_server))
             "/me/drive/root/delta?token=1" "" [b_deleted]).
    + vm_compute. reflexivity.
    + discriminate.
Defined.

Lemma Flush_then_Get_returns_the_bytes_witness :
  exists w1 w2 c2,
    FlushContentID raw_bytes "F1" live_content_world = Ret (tt, w1) /\
    content_db w1 !! "F1" = Some ["a"; "b"; "c"]%byte /\
    GetContentID raw_bytes "F1" None w1 = Ret ((Some c2, None), w2) /\
    elems (Content.data c2) = ["a"; "b"; "c"]%byte.
Proof.
  destruct (Flush_then_Get_returns_the_bytes raw_bytes "F1" abc_content None
              live_content_world)
    as (w1 & w2 & c2 & Hflush & _ & Hdb & Hget & Hbytes & _).
  - vm_compute. reflexivity.
  - vm_compute. reflexivity.
  - exists w1, w2, c2. split_and!; [exact Hflush | exact Hdb | exact Hget | exact Hbytes].
Defined.

Lemma DeleteContentID_evicts_witness :
  exists w1,
    DeleteContentID "GONE" live_content_world = Ret (tt, w1) /\
    GetContentID raw_bytes "GONE" None w1 = Ret ((None, Some metadata_missing), w1).
Proof.
  destruct (DeleteContentID_evicts raw_bytes "GONE" None live_content_world)
    as (w1 & Hrun & _ & _ & _ & Hget).
  exists w1. split; [exact Hrun|]. apply Hget. vm_compute. reflexivity.
Defined.

Lemma StatFs_reports_witness :
  exists out,
    StatFs small_drive fs0 "" (world_of empty_drive_items accepting)
    = Ret (out, with_calls [MkRequest GET "/me/drive" (Some (MkAuth "token")) NoBody]
                  (world_of empty_drive_items accepting)) /\
    Blocks out * 4096 <= 10000 < Blocks out * 4096 + 4096 /\
    Ffree out = 100000 - 7.
Proof.
  destruct (StatFs_reports small_drive fs0 "" (world_of empty_drive_items accepting))
    as (out & Hrun & _ & _ & _ & _ & _ & Hok).
  destruct (Hok (BodyItem empty_json) eq_refl) as (Hblocks & Hfree & _).
  - vm_compute. discriminate.
  - vm_compute. split; [discriminate | reflexivity].
  - exists out. split; [exact Hrun|]. split; [exact Hblocks|].
    apply Hfree. vm_compute. discriminate.
Defined.

Lemma Truncate_beyond_capacity_panics_witness :
  Content.Truncate abc_content 10 = Panic.
Proof.
  apply (Truncate_beyond_capacity_panics abc_content 10).
  vm_compute. reflexivity.
Defined.
